(** * OPAQUE (everyCTO/opaque): configuration, key schedule and server facade

    A shallow embedding of the Go sources
      - [opaque.go]            (package opaque: Configuration, envelopeSize, ...)
      - [server.go]            (package opaque: Server)
      - [message/login.go]     (package message: KE1, KE2, KE3)
      - [internal/ake/3dh.go]  (package ake: the 3DH core)
      - [ake/3dh.go]           (package ake, earlier layout: Ake.Initialize)
    together with the properties the specification states about them.

    Conventions.
      - [[]byte] is [list byte]; a slice that is compared with [nil] in the
        source is an [option bytes].
      - Go's [int] is a 64-bit two's complement integer, carried as a [Z]
        with the wrap-around of [+] written out ([int_add]).
      - a Go [error] result is a [result]; a run-time panic of a function
        that has no error result is [None].
      - the group, hash, KDF, MAC and OPRF primitives come from
        [github.com/bytemare/cryptotools]; they are interfaces here
        ([Group], [Primitives]), as they are in the source.
      - the random source is an explicit state threaded through the calls. *)

From Stdlib Require Import ZArith List Lia Bool String.
From Stdlib.Strings Require Import Byte.
Import ListNotations.

Local Open Scope Z_scope.

(** ** Bytes and machine integers *)

Definition bytes := list byte.

Definition Z_of_byte (b : byte) : Z := Z.of_N (Byte.to_N b).

(** Go's conversion [byte(x)] of an integer: the low eight bits. *)
Definition byte_of_Z (z : Z) : byte :=
  match Byte.of_N (Z.to_N (z mod 256)) with
  | Some b => b
  | None => x00
  end.

Fixpoint bytes_eqb (a b : bytes) : bool :=
  match a, b with
  | [], [] => true
  | x :: a', y :: b' => Byte.eqb x y && bytes_eqb a' b'
  | _, _ => false
  end.

Definition int_bits : Z := 64.
Definition int_min : Z := - 2 ^ (int_bits - 1).
Definition int_max : Z := 2 ^ (int_bits - 1) - 1.

(** Reduction of a mathematical integer to the range of Go's [int]. *)
Definition int_wrap (z : Z) : Z :=
  (z - int_min) mod 2 ^ int_bits + int_min.

(** Go's [a + b] on [int]. *)
Definition int_add (a b : Z) : Z := int_wrap (a + b).

Definition in_int_range (z : Z) : Prop := int_min <= z <= int_max.

(** [len(b)] *)
Definition len {A} (l : list A) : Z := Z.of_nat (List.length l).

(** [make([]byte, l)]: a zeroed slice; the run time panics on a negative
    length. *)
Definition make_bytes (l : Z) : option bytes :=
  if l <? 0 then None else Some (repeat x00 (Z.to_nat l)).

(** ** Errors *)

Inductive error : Type :=
| ErrConfigurationInvalidLength          (* internal.ErrConfigurationInvalidLength *)
| ErrAkeInvalidClientMac                 (* opaque.ErrAkeInvalidClientMac *)
| ErrInvalidState                        (* opaque.ErrInvalidState *)
| ErrDecodeElement                       (* group: Element.Decode failed *)
| ErrDecodeScalar                        (* group: Scalar.Decode failed *)
| ErrOprfEvaluate                        (* oprf: Server.Evaluate failed *)
| ErrWrap (context : string) (e : error) (* fmt.Errorf("<context>: %w", e) *).

Inductive result (A : Type) : Type :=
| Ok (a : A)
| Err (e : error).
Arguments Ok {A} a.
Arguments Err {A} e.

Definition of_option {A} (o : option A) (e : error) : result A :=
  match o with
  | Some a => Ok a
  | None => Err e
  end.

(** ** Package internal/encoding *)

Module encoding.

Fixpoint be_bytes (w : nat) (n : Z) : bytes :=
  match w with
  | O => []
  | S w' => be_bytes w' (n / 256) ++ [byte_of_Z (n mod 256)]
  end.

(** Modelled from the spec: [I2OSP] of internal/encoding, whose file is not
    among the sources.  "I2OSP(n, w) -> big-endian w-byte integer"; "I2OSP
    fails if n does not fit in w bytes".  A failure is a panic. *)
Definition I2OSP (n : Z) (w : nat) : option bytes :=
  if (0 <=? n) && (n <? 256 ^ Z.of_nat w) then Some (be_bytes w n) else None.

(** Modelled from the spec: [OS2IP] of internal/encoding.  "OS2IP(b) ->
    integer from bytes", big-endian as all integers of the protocol. *)
Definition OS2IP (b : bytes) : Z :=
  fold_left (fun acc x => acc * 256 + Z_of_byte x) b 0.

(** Modelled from the spec: [Concat] of internal/encoding, "byte join". *)
Definition Concat (a b : bytes) : bytes := a ++ b.

(** Modelled from the spec: [Concat3] of internal/encoding, "Concat3(a,b,c)
    byte join". *)
Definition Concat3 (a b c : bytes) : bytes := a ++ b ++ c.

(** Modelled from the spec: [Concatenate] of internal/encoding, the join of
    any number of byte strings. *)
Definition Concatenate (l : list bytes) : bytes := List.concat l.

(** Modelled from the spec: [EncodeVectorLen] of internal/encoding.
    "EncodeVector(b, w) prepends a w-byte big-endian length". *)
Definition EncodeVectorLen (input : bytes) (w : nat) : option bytes :=
  match I2OSP (len input) w with
  | Some l => Some (l ++ input)
  | None => None
  end.

(** Modelled from the spec: [EncodeVector], the two-byte length prefix that
    "all variable-length fields" carry. *)
Definition EncodeVector (input : bytes) : option bytes := EncodeVectorLen input 2.

(** Modelled from the spec: [SuffixString] of internal/encoding, the
    "credential-identifier || OprfKey" join of a byte string and a tag. *)
Definition SuffixString (a : bytes) (s : string) : bytes :=
  a ++ list_byte_of_string s.

End encoding.

(** ** Package internal/tag *)

Module tag.

(** The file of internal/tag is not among the sources.  Its constants are
    the "fixed ASCII constants" that the specification lists ("must match
    bit-for-bit"); the four AKE labels and the prefix are also the constants
    [labelPrefix], [tagHandshake], [tagSession], [tagMacServer] and
    [tagMacClient] of ake/3dh.go. *)

(** Modelled from the spec: [tag.LabelPrefix], the label prefix. *)
Definition LabelPrefix : string := "OPAQUE ".

(** Modelled from the spec: [tag.VersionTag], the version tag. *)
Definition VersionTag : string := "RFCXXXX".

(** Modelled from the spec: [tag.Handshake]. *)
Definition Handshake : string := "handshake secret".

(** Modelled from the spec: [tag.Session]. *)
Definition Session : string := "session secret".

(** Modelled from the spec: [tag.MacServer]. *)
Definition MacServer : string := "server mac".

(** Modelled from the spec: [tag.MacClient]. *)
Definition MacClient : string := "client mac".

(** Modelled from the spec: [tag.OprfKey]. *)
Definition OprfKey : string := "OprfKey".

(** Modelled from the spec: [tag.DeriveKeyPair]. *)
Definition DeriveKeyPair : string := "OPAQUE-DeriveKeyPair".

(** Modelled from the spec: [tag.CredentialResponsePad]. *)
Definition CredentialResponsePad : string := "CredentialResponsePad".

End tag.

(** ** The random source

    [internal.RandomBytes] and [Scalar.Random] read the system's random
    source.  The source is a tape of bytes and a read position; every read
    advances the position. *)

Record Rng : Type := mkRng { rng_tape : nat -> byte; rng_pos : nat }.

Definition rng_read (n : nat) (r : Rng) : bytes * Rng :=
  (map (rng_tape r) (seq (rng_pos r) n), mkRng (rng_tape r) (rng_pos r + n)).

(** Computations that read the random source and may return an [error]. *)
Definition M (A : Type) : Type := Rng -> result A * Rng.

Definition ret {A} (a : A) : M A := fun r => (Ok a, r).
Definition bind {A B} (m : M A) (k : A -> M B) : M B :=
  fun r => match m r with
           | (Ok a, r') => k a r'
           | (Err e, r') => (Err e, r')
           end.
Definition lift {A} (x : result A) : M A := fun r => (x, r).
Definition random {A} (f : Rng -> A * Rng) : M A :=
  fun r => let (a, r') := f r in (Ok a, r').

Declare Scope go_scope.
Delimit Scope go_scope with go.
Notation "x <- m ;; k" := (bind m (fun x => k))
  (at level 61, m at next level, right associativity) : go_scope.

(** fmt.Errorf("<context>: %w", err) on the error branch. *)
Definition wrap_err {A} (context : string) (x : result A) : result A :=
  match x with
  | Ok a => Ok a
  | Err e => Err (ErrWrap context e)
  end.

(** ** The interfaces of github.com/bytemare/cryptotools *)

Module group.

(** [group.Group], with the methods of [group.Scalar] and [group.Element]
    that the sources call.  [Mult] returns a new element and leaves its
    receiver unchanged. *)
Class Group : Type := {
  Scalar : Type;
  Element : Type;
  Base : Element;                               (* g.Base() *)
  Mult : Element -> Scalar -> Element;          (* p.Mult(s) *)
  Bytes : Element -> bytes;                     (* p.Bytes() *)
  DecodeElement : bytes -> result Element;      (* g.NewElement().Decode(b) *)
  DecodeScalar : bytes -> result Scalar;        (* g.NewScalar().Decode(b) *)
  RandomScalar : Rng -> Scalar * Rng;           (* g.NewScalar().Random() *)
}.

(** The one law of a prime-order group that the key exchange relies on:
    scalar multiplications commute. *)
Class GroupLaws (G : Group) : Prop := {
  Mult_comm : forall (P : Element) (a b : Scalar),
      Mult (Mult P a) b = Mult (Mult P b) a;
}.

End group.

(** [hash.Hashing] and [mhf.Identifier]: unsigned integer identifiers. *)
Definition Hashing : Type := Z.
Definition MHFIdentifier : Type := Z.

(** [ciphersuite.Identifier] and [oprf.Ciphersuite]: one-byte identifiers of
    a group with its hash-to-curve suite; [opaque.Group] converts to them. *)
Definition CiphersuiteIdentifier : Type := byte.

(** What the sources take from cryptotools, from internal/oprf and from the
    tables of internal/encoding, none of which is among the sources. *)
Class Primitives : Type := {
  (* identifiers *)
  RistrettoSha512_id : CiphersuiteIdentifier;   (* oprf.RistrettoSha512 *)
  P256Sha256_id : CiphersuiteIdentifier;        (* oprf.P256Sha256 *)
  P384Sha512_id : CiphersuiteIdentifier;        (* oprf.P384Sha512 *)
  P521Sha512_id : CiphersuiteIdentifier;        (* oprf.P521Sha512 *)
  SHA512 : Hashing;                             (* hash.SHA512 *)
  Scrypt : MHFIdentifier;                       (* mhf.Scrypt *)
  (* hash.Hashing *)
  HashSize : Hashing -> Z;                      (* h.Get().OutputSize() *)
  HKDFExtract : Hashing -> bytes -> bytes -> bytes;      (* salt, ikm *)
  HKDFExpand : Hashing -> bytes -> bytes -> Z -> bytes;  (* key, info, length *)
  Hmac : Hashing -> bytes -> bytes -> bytes;             (* key, message *)
  (* internal/encoding *)
  ScalarLength : CiphersuiteIdentifier -> Z;    (* encoding.ScalarLength[g] *)
  PointLength : CiphersuiteIdentifier -> Z;     (* encoding.PointLength[g] *)
  (* ciphersuite.Identifier as a group *)
  group_of : CiphersuiteIdentifier -> group.Group;
  (* internal/oprf *)
  DeriveKey : forall g : CiphersuiteIdentifier,
      bytes -> bytes -> @group.Scalar (group_of g);      (* seed, info *)
  Evaluate : forall g : CiphersuiteIdentifier,
      @group.Scalar (group_of g) -> bytes -> result bytes;
}.

(** The running hash behind [internal.Hash], whose file is not among the
    sources: [p.Hash.Write(b)] absorbs bytes into the state of the hash, and
    [p.Hash.Sum()] returns a digest and the state it leaves.  The state is
    the one that the [Parameters] point to; it is passed explicitly. *)
Class RunningHash : Type := {
  HashState : Type;
  Hash_Write : Hashing -> HashState -> bytes -> HashState;
  Hash_Sum : Hashing -> HashState -> bytes * HashState;
}.

(** What package envelope takes from cryptotools besides [Primitives]. *)
Class EnvelopePrimitives (prim : Primitives) : Type := {
  MHFParameters : Type;                                  (* *mhf.Parameters *)
  MHF_Hash : MHFParameters -> bytes -> bytes -> bytes;   (* password, salt *)
  HashToScalar : forall g : CiphersuiteIdentifier,
      bytes -> bytes -> @group.Scalar (group_of g);      (* dst, input *)
  ScalarBytes : forall g : CiphersuiteIdentifier,
      @group.Scalar (group_of g) -> bytes;               (* s.Bytes() *)
}.

(** ** Package internal

    The files of package internal are not among the sources; the record
    [Parameters] has the fields that [Configuration.toInternal] and the
    tests fill in, and the wrappers [KDF], [Mac], [Hash] and [MHF] hold the
    primitive that the identifier's [Get()] returns, carried here as the
    identifier itself.  The fields of [Parameters] have the prefix [p]:
    [pKDF] is the field [KDF], and so on. *)

Module internal.

(** [internal.KDF{H: c.KDF.Get()}], as [toInternal] builds it. *)
Record KDF : Type := mkKDF { KDF_H : Hashing }.

(** [internal.Mac{H: c.MAC.Get()}] *)
Record Mac : Type := mkMac { Mac_H : Hashing }.

(** [internal.Hash{H: c.Hash.Get()}] *)
Record Hash : Type := mkHash { Hash_H : Hashing }.

(** [internal.MHF{MHF: c.MHF.Get()}] *)
Record MHF : Type := mkMHF { MHF_MHF : MHFIdentifier }.

(** [internal.Parameters], with the fields of the struct literal in
    [Configuration.toInternal] and the field [EnvelopeSize] that it
    assigns. *)
Record Parameters : Type := mkParameters {
  pKDF : KDF;
  pMAC : Mac;
  pHash : Hash;
  pMHF : MHF;
  pNonceLen : Z;
  pEnvelopeSize : Z;
  pOPRFPointLength : Z;
  pAkePointLength : Z;
  pGroup : CiphersuiteIdentifier;
  pOPRF : CiphersuiteIdentifier;
  pContext : bytes;
}.

(** Modelled from the spec: [internal.RandomBytes(length)], whose file is
    not among the sources.  "Each operation that needs entropy reads fresh
    bytes." *)
Definition RandomBytes (length : Z) : M bytes :=
  random (rng_read (Z.to_nat length)).

Section Methods.
Context {prim : Primitives}.

(** The methods of the wrappers hand over to the primitive they hold. *)

(** [KDF.Size()]: the output size of the hash function of the KDF. *)
Definition KDF_Size (h : KDF) : Z := HashSize (KDF_H h).

(** [KDF.Extract(salt, ikm)] *)
Definition KDF_Extract (h : KDF) (salt ikm : bytes) : bytes :=
  HKDFExtract (KDF_H h) salt ikm.

(** [KDF.Expand(key, info, length)] *)
Definition KDF_Expand (h : KDF) (key info : bytes) (length : Z) : bytes :=
  HKDFExpand (KDF_H h) key info length.

(** [Hash.Size()] *)
Definition Hash_Size (x : Hash) : Z := HashSize (Hash_H x).

(** [Mac.Size()] *)
Definition Mac_Size (m : Mac) : Z := HashSize (Mac_H m).

(** [Mac.MAC(key, message)] *)
Definition Mac_MAC (m : Mac) (key message : bytes) : bytes :=
  Hmac (Mac_H m) key message.

End Methods.

(** Modelled from the spec: the accumulator of the constant-time comparison
    behind [Mac.Equal]: the bitwise or of the bytewise exclusive ors, every
    byte being visited ("never short-circuit"). *)
Fixpoint ct_fold (v : Z) (x y : bytes) : Z :=
  match x, y with
  | a :: x', b :: y' => ct_fold (Z.lor v (Z.lxor (Z_of_byte a) (Z_of_byte b))) x' y'
  | _, _ => v
  end.

(** Modelled from the spec: [Mac.Equal] of package internal, the
    "constant-time equality primitive" that "never short-circuits": the
    comparison of two MACs of equal length accumulates the differences of
    all bytes and tests the accumulator once. *)
Definition Mac_Equal (a b : bytes) : bool :=
  if len a =? len b then ct_fold 0 a b =? 0 else false.

(** [a ^ b] on bytes. *)
Definition byte_xor (a b : byte) : byte :=
  byte_of_Z (Z.lxor (Z_of_byte a) (Z_of_byte b)).

(** Modelled from the spec: the XOR of a pad and an input of the same
    length, "masked-response = cleartext XOR mask". *)
Fixpoint Xor (a b : bytes) : bytes :=
  match a, b with
  | x :: a', y :: b' => byte_xor x y :: Xor a' b'
  | _, _ => []
  end.

Section MaskResponse.
Context {prim : Primitives}.

(** Modelled from the spec: [Parameters.MaskResponse] of package
    internal.  "mask = Expand(masking-key, masking-nonce ||
    CredentialResponsePad, length(server-public-key) + EnvelopeSize);
    masked-response = cleartext XOR mask". *)
Definition MaskResponse (p : Parameters) (key nonce clear : bytes) : bytes :=
  let pad := KDF_Expand (pKDF p) key
               (encoding.SuffixString nonce tag.CredentialResponsePad) (len clear) in
  Xor pad clear.

(** Modelled from the spec: [encoding.PadPoint] of internal/encoding.
    "PadPoint(b, g) left-zero-pads to the group element length".  It stands
    in this module because it reads the table [PointLength]. *)
Definition PadPoint (b : bytes) (g : CiphersuiteIdentifier) : bytes :=
  repeat x00 (Z.to_nat (PointLength g - len b)) ++ b.

End MaskResponse.

End internal.

(** ** Package internal/message *)

Module cred.

(** The file of internal/message is not among the sources; the fields are
    those that server.go and message/login.go read and write. *)

(** [CredentialRequest], with the field [Data] that server.go reads. *)
Record CredentialRequest : Type := mkCredentialRequest { Data : bytes }.

(** [CredentialResponse], with the fields of the struct literal in
    [Server.credentialResponse]; the field [Data] is [rData]. *)
Record CredentialResponse : Type := mkCredentialResponse {
  rData : bytes;
  MaskingNonce : bytes;
  MaskedResponse : bytes;
}.

(** Modelled from the spec: [CredentialRequest.Serialize] of
    internal/message; KE1 is "blinded-element || client-nonce ||
    client-ephemeral-pubkey", whose first field is the request. *)
Definition CredentialRequest_Serialize (c : CredentialRequest) : bytes := Data c.

(** Modelled from the spec: [CredentialResponse.Serialize] of
    internal/message; the credential response is the head of KE2,
    "evaluated-element || masking-nonce (NonceLen) || masked-response
    (ake-element-len + EnvelopeSize)". *)
Definition CredentialResponse_Serialize (c : CredentialResponse) : bytes :=
  encoding.Concat3 (rData c) (MaskingNonce c) (MaskedResponse c).

End cred.

(** ** Package message (message/login.go) *)

Module message.

Record KE1 : Type := mkKE1 {
  KE1_CredentialRequest : cred.CredentialRequest;
  NonceU : bytes;
  EpkU : bytes;
}.

Definition KE1_Serialize (m : KE1) : bytes :=
  encoding.Concat3 (cred.CredentialRequest_Serialize (KE1_CredentialRequest m))
    (NonceU m) (EpkU m).

Record KE2 : Type := mkKE2 {
  KE2_CredentialResponse : cred.CredentialResponse;
  NonceS : bytes;
  EpkS : bytes;
  KE2_Mac : bytes;
}.

Definition KE2_Serialize (m : KE2) : bytes :=
  encoding.Concat (cred.CredentialResponse_Serialize (KE2_CredentialResponse m))
    (encoding.Concat3 (NonceS m) (EpkS m) (KE2_Mac m)).

Record KE3 : Type := mkKE3 { Mac : bytes }.

Definition KE3_Serialize (k : KE3) : bytes := Mac k.

(** The registration messages, whose file (message/registration.go) is not
    among the sources; the fields are those that server.go reads and
    writes. *)

(** [RegistrationRequest], with the field [Data] ([reqData]). *)
Record RegistrationRequest : Type := mkRegistrationRequest { reqData : bytes }.

(** [RegistrationResponse], with the fields [Data] ([respData]) and [Pks]
    of the struct literal in [Server.RegistrationResponse]. *)
Record RegistrationResponse : Type := mkRegistrationResponse {
  respData : bytes;
  Pks : bytes;
}.

(** [RegistrationUpload], with the fields that [Server.Init] and
    [Server.credentialResponse] read. *)
Record RegistrationUpload : Type := mkRegistrationUpload {
  PublicKey : bytes;
  MaskingKey : bytes;
  Envelope : bytes;
}.

End message.

(** A panic propagates through the steps that follow it. *)
Definition obind {A B} (m : option A) (k : A -> option B) : option B :=
  match m with
  | Some a => k a
  | None => None
  end.

Notation "'let?' x := m 'in' k" := (obind m (fun x => k))
  (at level 10, x name, m at level 100, k at level 200).

(** ** Package ake (internal/ake/3dh.go) *)

Module internal_ake.

Definition selector : Type := bool.
Definition client : selector := true.
Definition server : selector := false.

Record macKeys : Type := mkMacKeys {
  serverMacKey : bytes;
  clientMacKey : bytes;
}.

Section WithGroup.
Context {G : group.Group}.

(** setValues - testing: integrated to support testing, to force values.
    "There's no effect if esk, epk, and nonce have already been set in a
    previous call." *)
Definition setValues (scalar : option group.Scalar) (nonce : bytes) (nonceLen : Z)
  : M (group.Scalar * bytes) :=
  (s <- match scalar with
        | Some sc => ret sc
        | None => random group.RandomScalar
        end ;;
   n <- (if len nonce =? 0 then internal.RandomBytes nonceLen else ret nonce) ;;
   ret (s, n))%go.

Definition decodeKeys (peerEpk peerPk : bytes) : result (group.Element * group.Element) :=
  match group.DecodeElement peerEpk with
  | Err e => Err (ErrWrap "decoding peer ephemeral public key" e)
  | Ok epk =>
      match group.DecodeElement peerPk with
      | Err e => Err (ErrWrap "decoding peer public key" e)
      | Ok pk => Ok (epk, pk)
      end
  end.

Definition k3dh (p1 : group.Element) (s1 : group.Scalar)
                (p2 : group.Element) (s2 : group.Scalar)
                (p3 : group.Element) (s3 : group.Scalar) : bytes :=
  let e1 := group.Mult p1 s1 in
  let e2 := group.Mult p2 s2 in
  let e3 := group.Mult p3 s3 in
  encoding.Concat3 (group.Bytes e1) (group.Bytes e2) (group.Bytes e3).

Definition ikm (s : selector) (esk secretKey : group.Scalar)
               (peerEpk peerPublicKey : bytes) : result bytes :=
  match decodeKeys peerEpk peerPublicKey with
  | Err e => Err e
  | Ok (epk, gpk) =>
      if Bool.eqb s client
      then Ok (k3dh epk esk gpk esk epk secretKey)
      else (* server *) Ok (k3dh epk esk epk secretKey gpk esk)
  end.

End WithGroup.

Section KeySchedule.
Context {prim : Primitives}.

Definition buildLabel (length : Z) (label context : bytes) : option bytes :=
  let? l := encoding.I2OSP length 2 in
  let? v := encoding.EncodeVectorLen (list_byte_of_string tag.LabelPrefix ++ label) 1 in
  let? c := encoding.EncodeVectorLen context 1 in
  Some (encoding.Concat3 l v c).

Definition expand (h : internal.KDF) (secret hkdfLabel : bytes) : bytes :=
  internal.KDF_Expand h secret hkdfLabel (internal.KDF_Size h).

Definition expandLabel (h : internal.KDF) (secret label context : bytes) : option bytes :=
  let? hkdfLabel := buildLabel (internal.KDF_Size h) label context in
  Some (expand h secret hkdfLabel).

Definition deriveSecret (h : internal.KDF) (secret label context : bytes) : option bytes :=
  expandLabel h secret label context.

(** [deriveKeys(h, ikm, context)]; the salt [nil] of [Extract] and the
    context [nil] of the two MAC keys are empty byte strings. *)
Definition deriveKeys (h : internal.KDF) (ikm context : bytes) : option (macKeys * bytes) :=
  let prk := internal.KDF_Extract h [] ikm in
  let? handshakeSecret := deriveSecret h prk (list_byte_of_string tag.Handshake) context in
  let? sessionSecret := deriveSecret h prk (list_byte_of_string tag.Session) context in
  let? serverMacKey := expandLabel h handshakeSecret (list_byte_of_string tag.MacServer) [] in
  let? clientMacKey := expandLabel h handshakeSecret (list_byte_of_string tag.MacClient) [] in
  Some (mkMacKeys serverMacKey clientMacKey, sessionSecret).

End KeySchedule.

(** [macs]; its field [clientMac] is [macs_clientMac]. *)
Record macs : Type := mkMacs {
  serverMac : bytes;
  macs_clientMac : bytes;
}.

(** [coreKeys], over the group of the parameters. *)
Record coreKeys {G : group.Group} : Type := mkCoreKeys {
  esk : group.Scalar;
  secretKey : group.Scalar;
  peerEpk : bytes;
  peerPublicKey : bytes;
}.
Arguments coreKeys G : clear implicits.

Section Core.
Context {prim : Primitives} {rh : RunningHash}.

(** The bytes that [initTranscript] hands to [p.Hash.Write]; an
    [EncodeVector] of a string that is too long panics. *)
Definition transcript (p : internal.Parameters) (idc ids : bytes)
    (ke1 : message.KE1) (ke2 : message.KE2) : option bytes :=
  let? sidc := encoding.EncodeVector idc in
  let? sids := encoding.EncodeVector ids in
  let? ctx := encoding.EncodeVector (internal.pContext p) in
  Some (encoding.Concatenate
          [ list_byte_of_string tag.VersionTag; ctx;
            sidc; message.KE1_Serialize ke1;
            sids; cred.CredentialResponse_Serialize (message.KE2_CredentialResponse ke2);
            message.NonceS ke2; message.EpkS ke2 ]).

Definition initTranscript (p : internal.Parameters) (idc ids : bytes)
    (ke1 : message.KE1) (ke2 : message.KE2) (hs : HashState) : option HashState :=
  let? t := transcript p idc ids ke1 ke2 in
  Some (Hash_Write (internal.Hash_H (internal.pHash p)) hs t).

(** [core3DH]; the result is [None] on a panic, and otherwise the returned
    values (or the error) with the state of the hash of [p]. *)
Definition core3DH (s : selector) (p : internal.Parameters)
    (k : coreKeys (group_of (internal.pGroup p))) (idu ids : bytes)
    (ke1 : message.KE1) (ke2 : message.KE2) (hs : HashState)
  : option (result (macs * bytes) * HashState) :=
  match ikm (G := group_of (internal.pGroup p)) s
          (esk k) (secretKey k) (peerEpk k) (peerPublicKey k) with
  | Err e => Some (Err e, hs)
  | Ok ikm_ =>
      let h := internal.Hash_H (internal.pHash p) in
      let? hs1 := initTranscript p idu ids ke1 ke2 hs in
      let (preamble, hs2) := Hash_Sum h hs1 in
      let? ks := deriveKeys (internal.pKDF p) ikm_ preamble in
      let (keys, sessionSecret) := ks in
      let (transcript2, hs3) := Hash_Sum h hs2 in
      let serverMac := internal.Mac_MAC (internal.pMAC p) (serverMacKey keys) transcript2 in
      let hs4 := Hash_Write h hs3 serverMac in
      let (transcript3, hs5) := Hash_Sum h hs4 in
      let clientMac := internal.Mac_MAC (internal.pMAC p) (clientMacKey keys) transcript3 in
      Some (Ok (mkMacs serverMac clientMac, sessionSecret), hs5)
  end.

End Core.

(** Modelled from the spec: the state of [ake.Server], whose file
    (internal/ake/server.go) is not among the sources.  "Server AKE state
    (across Init and Finish): expected client-mac, session-key." *)
Record Server : Type := mkServer {
  clientMac : bytes;
  sessionSecret : bytes;
}.

(** Modelled from the spec: [ake.NewServer] of internal/ake/server.go, a
    server with nothing stored yet. *)
Definition NewServer : Server := mkServer [] [].

(** Modelled from the spec: [Server.Finalize] of internal/ake/server.go.
    "On Finish(KE3): constant-time-compares received client-mac to
    expected; on equality the session key is available." *)
Definition Finalize (s : Server) (p : internal.Parameters) (ke3 : message.KE3) : bool :=
  internal.Mac_Equal (clientMac s) (message.Mac ke3).

(** Modelled from the spec: [Server.ExpectedMAC] of internal/ake/server.go,
    the expected client MAC that Init stored. *)
Definition ExpectedMAC (s : Server) : bytes := clientMac s.

End internal_ake.

(** ** Package ake (ake/3dh.go) *)

Module ake.

Record Keys : Type := mkKeys {
  ServerMacKey : bytes;
  ClientMacKey : bytes;
  HandshakeSecret : bytes;
  HandshakeEncryptKey : bytes;
  Keys_SessionSecret : bytes;
}.

(** [utils.RandomBytes(length)] of cryptotools, the same read of the random
    source as [internal.RandomBytes]. *)
Definition RandomBytes (length : Z) : M bytes :=
  random (rng_read (Z.to_nat length)).

Section WithGroup.
Context {G : group.Group}.

(** The struct [Ake]; the embedded [group.Group] is the instance [G]. *)
Record Ake : Type := mkAke {
  Ake_Hashing : Hashing;
  SessionSecret : bytes;
  Esk : option group.Scalar;
  Epk : option group.Element;
  Ake_Keys : option Keys;
}.

(** "todo: Only useful in testing, to force values.  Note := there's no
    effect if esk, epk, and nonce have already been set in a previous
    call."  The receiver is updated in place: the new receiver is returned
    next to the nonce. *)
Definition Initialize (a : Ake) (scalar : option group.Scalar) (nonce : option bytes)
    (nonceLen : Z) : M (bytes * Ake) :=
  (esk <- match Esk a with
          | Some e => ret e
          | None =>
              match scalar with
              | Some sc => ret sc
              | None => random group.RandomScalar
              end
          end ;;
   let a' := mkAke (Ake_Hashing a) (SessionSecret a) (Some esk)
                   (Some (group.Mult group.Base esk)) (Ake_Keys a) in
   match nonce with
   | Some n => ret (n, a')
   | None => (n <- RandomBytes nonceLen ;; ret (n, a'))
   end)%go.

End WithGroup.

End ake.

(** ** Package opaque (opaque.go) *)

Module opaque.

(** [type Mode byte] *)
Definition Mode : Type := byte.
Definition Internal : Mode := x01.       (* iota + 1 *)
Definition External : Mode := x02.

(** [type Group byte] *)
Definition Group : Type := byte.

Definition confLength : Z := 7.

(** [Configuration]; the field [Group] is [cGroup], and so on. *)
Record Configuration : Type := mkConfiguration {
  cGroup : Group;
  cKDF : Hashing;
  cMAC : Hashing;
  cHash : Hashing;
  cMHF : MHFIdentifier;
  cMode : Mode;
  cContext : bytes;
  cNonceLen : Z;
}.

Section WithPrimitives.
Context {prim : Primitives}.

Definition RistrettoSha512 : Group := RistrettoSha512_id.
Definition P256Sha256 : Group := P256Sha256_id.
Definition P384Sha512 : Group := P384Sha512_id.
Definition P521Sha512 : Group := P521Sha512_id.

Definition envelopeSize (mode : Mode) (p : internal.Parameters) : Z :=
  let innerSize :=
    if Byte.eqb mode External then ScalarLength (internal.pGroup p) else 0 in
  int_add (int_add (internal.pNonceLen p) (internal.Mac_Size (internal.pMAC p))) innerSize.

Definition toInternal (c : Configuration) : internal.Parameters :=
  let g : CiphersuiteIdentifier := cGroup c in
  let ip := internal.mkParameters
              (internal.mkKDF (cKDF c))
              (internal.mkMac (cMAC c))
              (internal.mkHash (cHash c))
              (internal.mkMHF (cMHF c))
              (cNonceLen c)
              0
              (PointLength g)
              (PointLength g)
              g
              g
              (cContext c) in
  internal.mkParameters
    (internal.pKDF ip) (internal.pMAC ip) (internal.pHash ip) (internal.pMHF ip)
    (internal.pNonceLen ip)
    (envelopeSize (cMode c) ip)
    (internal.pOPRFPointLength ip) (internal.pAkePointLength ip)
    (internal.pGroup ip) (internal.pOPRF ip) (internal.pContext ip).

(** DefaultConfiguration returns a default configuration with strong
    parameters. *)
Definition DefaultConfiguration : Configuration :=
  mkConfiguration RistrettoSha512 SHA512 SHA512 SHA512 Scrypt Internal [] 32.

(** GetFakeEnvelope returns a byte array filled with 0s the length of a
    legitimate envelope size in the configuration's mode. *)
Definition GetFakeEnvelope (c : Configuration) : option bytes :=
  let l := internal.pEnvelopeSize (toInternal c) in
  make_bytes l.

End WithPrimitives.

(** Serialize returns the byte encoding of the Configuration structure.
    [I2OSP] panics on a nonce length that does not fit in one byte. *)
Definition Serialize (c : Configuration) : option bytes :=
  let? n := encoding.I2OSP (cNonceLen c) 1 in
  Some [ cGroup c;
         byte_of_Z (cKDF c);
         byte_of_Z (cMAC c);
         byte_of_Z (cHash c);
         byte_of_Z (cMHF c);
         cMode c;
         nth 0 n x00 ].

(** DeserializeConfiguration decodes the input and returns a Parameter
    structure.  "This assumes that the encoded parameters are valid, and
    will not be checked." *)
Definition DeserializeConfiguration (encoded : bytes) : result Configuration :=
  if negb (len encoded =? confLength) then Err ErrConfigurationInvalidLength
  else Ok (mkConfiguration
             (nth 0 encoded x00)
             (Z_of_byte (nth 1 encoded x00))
             (Z_of_byte (nth 2 encoded x00))
             (Z_of_byte (nth 3 encoded x00))
             (Z_of_byte (nth 4 encoded x00))
             (nth 5 encoded x00)
             []
             (encoding.OS2IP (skipn 6 encoded))).

(** ClientRecord is a server-side structure enabling the storage of user
    relevant information.  [ClientIdentity] is compared with [nil]. *)
Record ClientRecord : Type := mkClientRecord {
  CredentialIdentifier : bytes;
  ClientIdentity : option bytes;
  RegistrationUpload : message.RegistrationUpload;
  TestMaskNonce : bytes;
}.

(** *** server.go *)

(** Server represents an OPAQUE Server, exposing its functions and holding
    its state. *)
Record Server : Type := mkServer {
  Parameters : internal.Parameters;
  Ake : internal_ake.Server;
}.

(** Finish returns an error if the KE3 received from the client holds an
    invalid mac, and nil if correct. *)
Definition Finish (s : Server) (ke3 : message.KE3) : option error :=
  if negb (internal_ake.Finalize (Ake s) (Parameters s) ke3)
  then Some ErrAkeInvalidClientMac
  else None.

(** ExpectedMAC returns the expected client MAC if the previous call to
    Init() was successful. *)
Definition ExpectedMAC (s : Server) : bytes := internal_ake.ExpectedMAC (Ake s).

Section ServerWithPrimitives.
Context {prim : Primitives}.

(** NewServer returns a Server instantiation given the application
    Configuration; a [nil] configuration is [None]. *)
Definition NewServer (p : option Configuration) : Server :=
  let p := match p with
           | None => DefaultConfiguration
           | Some c => c
           end in
  let ip := toInternal p in
  mkServer ip internal_ake.NewServer.

Definition evaluate (s : Server) (seed blinded : bytes) : result bytes :=
  let ku := DeriveKey (internal.pOPRF (Parameters s)) seed
              (list_byte_of_string tag.DeriveKeyPair) in
  Evaluate (internal.pOPRF (Parameters s)) ku blinded.

Definition oprfResponse (s : Server) (oprfSeed credentialIdentifier element : bytes)
  : result bytes :=
  let seed := internal.KDF_Expand (internal.pKDF (Parameters s)) oprfSeed
                (encoding.SuffixString credentialIdentifier tag.OprfKey)
                (ScalarLength (internal.pGroup (Parameters s))) in
  evaluate s seed element.

(** RegistrationResponse returns a RegistrationResponse message to the
    input RegistrationRequest message and given identifiers. *)
Definition RegistrationResponse (s : Server) (req : message.RegistrationRequest)
    (serverPublicKey credentialIdentifier oprfSeed : bytes)
  : result message.RegistrationResponse :=
  match oprfResponse s oprfSeed credentialIdentifier (message.reqData req) with
  | Err e => Err (ErrWrap " RegistrationResponse" e)
  | Ok z =>
      Ok (message.mkRegistrationResponse
            (internal.PadPoint z (internal.pGroup (Parameters s)))
            serverPublicKey)
  end.

Definition credentialResponse (s : Server) (req : cred.CredentialRequest)
    (serverPublicKey : bytes) (record : message.RegistrationUpload)
    (credentialIdentifier oprfSeed maskingNonce : bytes)
  : M cred.CredentialResponse :=
  (z <- lift (wrap_err "oprfResponse"
                (oprfResponse s oprfSeed credentialIdentifier (cred.Data req))) ;;
   (* testing: integrated to support testing, to force values. *)
   maskingNonce <- (if len maskingNonce =? 0
                    then internal.RandomBytes (internal.pNonceLen (Parameters s))
                    else ret maskingNonce) ;;
   let clear := encoding.Concat serverPublicKey (message.Envelope record) in
   let maskedResponse :=
     internal.MaskResponse (Parameters s) (message.MaskingKey record) maskingNonce clear in
   ret (cred.mkCredentialResponse
          (internal.PadPoint z (internal.pGroup (Parameters s)))
          maskingNonce
          maskedResponse))%go.

Section ServerAke.
Context {rh : RunningHash}.

(** [ake.Server.Response] and [ake.Server.SetState] of internal/ake/server.go,
    which is not among the sources: what [Init] and [SetAKEState] hand over
    to.  They act on the state of the AKE server, and [Response] also on the
    hash of the parameters and on the random source; each returns the state
    that it leaves, on success and on error. *)
Variable Response :
  forall p : internal.Parameters,
    internal_ake.Server -> bytes -> @group.Scalar (group_of (internal.pGroup p)) ->
    bytes -> bytes -> message.KE1 -> cred.CredentialResponse ->
    HashState -> Rng ->
    result message.KE2 * internal_ake.Server * HashState * Rng.
Variable SetState :
  internal_ake.Server -> bytes -> bytes -> option error * internal_ake.Server.

(** Init responds to a KE1 message with a KE2 message given server
    credentials and client record.  [serverIdentity] is compared with
    [nil]; the result comes with the server, the hash of its parameters and
    the random source as the call leaves them. *)
Definition Init (s : Server) (ke1 : message.KE1) (serverIdentity : option bytes)
    (serverSecretKey serverPublicKey oprfSeed : bytes) (record : ClientRecord)
    (hs : HashState) (r : Rng)
  : result message.KE2 * Server * HashState * Rng :=
  let p := Parameters s in
  match group.DecodeElement (Group := group_of (internal.pGroup p)) serverPublicKey with
  | Err e => (Err (ErrWrap "invalid server public key" e), s, hs, r)
  | Ok _ =>
  match group.DecodeScalar (Group := group_of (internal.pGroup p)) serverSecretKey with
  | Err e => (Err (ErrWrap "invalid server secret key" e), s, hs, r)
  | Ok sks =>
  match credentialResponse s (message.KE1_CredentialRequest ke1) serverPublicKey
          (RegistrationUpload record) (CredentialIdentifier record) oprfSeed
          (TestMaskNonce record) r with
  | (Err e, r1) => (Err (ErrWrap " credentialResponse" e), s, hs, r1)
  | (Ok response, r1) =>
      let clientIdentity :=
        match ClientIdentity record with
        | None => message.PublicKey (RegistrationUpload record)
        | Some i => i
        end in
      let serverIdentity :=
        match serverIdentity with
        | None => serverPublicKey
        | Some i => i
        end in
      match Response p (Ake s) serverIdentity sks clientIdentity
              (message.PublicKey (RegistrationUpload record)) ke1 response hs r1 with
      | (Err e, a, hs', r2) => (Err (ErrWrap " AKE response" e), mkServer p a, hs', r2)
      | (Ok ke2, a, hs', r2) => (Ok ke2, mkServer p a, hs', r2)
      end
  end
  end
  end.

(** SetAKEState sets the internal state of the AKE server from the given
    bytes.  The slices [state[:n]] and [state[n:]] panic when [n] is not
    between 0 and [len(state)]; the result is [None] on a panic, and
    otherwise the error ([None] for [nil]) with the server as the call
    leaves it. *)
Definition SetAKEState (s : Server) (state : bytes) : option (option error * Server) :=
  let p := Parameters s in
  let n := internal.Mac_Size (internal.pMAC p) in
  if negb (len state =? int_add n (internal.KDF_Size (internal.pKDF p)))
  then Some (Some ErrInvalidState, s)
  else if (n <? 0) || (len state <? n) then None
  else let (e, a) := SetState (Ake s) (firstn (Z.to_nat n) state)
                       (skipn (Z.to_nat n) state) in
       Some (e, mkServer p a).

End ServerAke.

End ServerWithPrimitives.

End opaque.

(** ** Package envelope (the optimal envelope) *)

Module envelope.

(** errors.New("invalid mac") *)
Inductive error : Type := ErrInvalidMac.

(** [const OptimalMode Mode = 2] *)
Definition OptimalMode : byte := x02.

Record EnvelopeOpt : Type := mkEnvelopeOpt { AuthTag : bytes }.

(** [hmac.Equal] of the Go library: whether two MACs are the same bytes. *)
Definition hmac_Equal (a b : bytes) : bool := bytes_eqb a b.

Section Optimal.
Context {prim : Primitives} {ep : EnvelopePrimitives prim}.

(** [Optimal]; the embedded [*mhf.Parameters] is the field [Parameters]. *)
Record Optimal : Type := mkOptimal {
  Group : CiphersuiteIdentifier;
  Hash : Hashing;
  Parameters : MHFParameters;
}.

Definition deriveSecretKey (cs : CiphersuiteIdentifier) (prk : bytes)
  : @group.Scalar (group_of cs) :=
  let dst := "Opaque-KeyGenerationSeed"%string in
  HashToScalar cs (list_byte_of_string dst) prk.

(** [buildKeys]; [h.HKDFExtract(hardened, nil)] has no salt, and
    [h.Hmac(message, key)] has the key [authKey]. *)
Definition buildKeys (o : Optimal) (unblinded pks : bytes)
  : @group.Scalar (group_of (Group o)) * bytes :=
  let hardened := MHF_Hash (Parameters o) unblinded [] in
  let h := Hash o in
  let prk := HKDFExtract h [] hardened in
  let sk := deriveSecretKey (Group o) prk in
  let authKey := HKDFExpand h prk (list_byte_of_string "AuthKey") 0 in
  let authTag := Hmac h authKey (encoding.Concatenate [pks]) in
  (sk, authTag).

Definition BuildEnvelopeOptimal (o : Optimal) (unblinded pks : bytes)
  : bytes * bytes * EnvelopeOpt :=
  let (sk, authTag) := buildKeys o unblinded pks in
  let pk := group.Mult group.Base sk in
  (ScalarBytes (Group o) sk, group.Bytes pk, mkEnvelopeOpt authTag).

Definition RecoverSecret (o : Optimal) (unblinded pks : bytes) (envU : EnvelopeOpt)
  : @group.Scalar (group_of (Group o)) + error :=
  let (sk, authTag) := buildKeys o unblinded pks in
  if negb (hmac_Equal authTag (AuthTag envU)) then inr ErrInvalidMac
  else inl sk.

End Optimal.

End envelope.

(** ** Small instances of the interfaces

    A group and a set of primitives small enough to evaluate, used where a
    statement is run on a concrete input.  The group is the multiplicative
    action of [Z] on the residues modulo 251. *)

Module Toy.

Definition decode1 (e : error) (b : bytes) : result Z :=
  match b with
  | [x] => if Z_of_byte x <? 251 then Ok (Z_of_byte x) else Err e
  | _ => Err e
  end.

Definition toy_group : group.Group := {|
  group.Scalar := Z;
  group.Element := Z;
  group.Base := 1;
  group.Mult := fun P s => (P * s) mod 251;
  group.Bytes := fun P => [byte_of_Z P];
  group.DecodeElement := decode1 ErrDecodeElement;
  group.DecodeScalar := decode1 ErrDecodeScalar;
  group.RandomScalar := fun r =>
    let (b, r') := rng_read 1 r in (encoding.OS2IP b mod 251, r');
|}.

Definition toy_primitives : Primitives := {|
  RistrettoSha512_id := x01;
  P256Sha256_id := x03;
  P384Sha512_id := x04;
  P521Sha512_id := x05;
  SHA512 := 2;
  Scrypt := 2;
  HashSize := fun h => if h =? 1 then 32 else 64;
  HKDFExtract := fun _ salt ikm => salt ++ ikm;
  HKDFExpand := fun _ key info length => firstn (Z.to_nat length) (info ++ key);
  Hmac := fun _ key message => key ++ message;
  ScalarLength := fun g => if Byte.eqb g x05 then 66 else if Byte.eqb g x04 then 48 else 32;
  PointLength := fun g => if Byte.eqb g x05 then 67 else if Byte.eqb g x04 then 49 else 32;
  group_of := fun _ => toy_group;
  DeriveKey := fun _ seed info => encoding.OS2IP (firstn 1 seed) mod 251;
  Evaluate := fun _ ku blinded =>
    match decode1 ErrOprfEvaluate blinded with
    | Ok P => Ok [byte_of_Z ((P * ku) mod 251)]
    | Err e => Err e
    end;
|}.

(** A random tape that counts upwards. *)
Definition counting_rng : Rng := mkRng (fun i => byte_of_Z (Z.of_nat i)) 0.

(** A running hash that keeps what is written and sums it to its first
    four bytes and its length. *)
Definition toy_hash : RunningHash := {|
  HashState := bytes;
  Hash_Write := fun _ st b => st ++ b;
  Hash_Sum := fun _ st => (byte_of_Z (len st) :: firstn 4 st, st);
|}.

Definition toy_envelope_primitives : EnvelopePrimitives toy_primitives :=
  Build_EnvelopePrimitives toy_primitives
    unit
    (fun _ password salt => salt ++ password)
    (fun _ dst input => encoding.OS2IP (firstn 1 input) mod 251)
    (fun _ s => [byte_of_Z s]).

(** An AKE server for the small primitives: its response has empty AKE
    fields and changes nothing, and it takes any state. *)
Definition toy_Response (p : internal.Parameters) (a : internal_ake.Server)
    (serverIdentity : bytes)
    (sks : @group.Scalar (group_of (Primitives := toy_primitives) (internal.pGroup p)))
    (clientIdentity clientPublicKey : bytes) (ke1 : message.KE1)
    (response : cred.CredentialResponse) (hs : HashState (RunningHash := toy_hash))
    (r : Rng)
  : result message.KE2 * internal_ake.Server * HashState (RunningHash := toy_hash) * Rng :=
  (Ok (message.mkKE2 response [] [] []), a, hs, r).

Definition toy_SetState (a : internal_ake.Server) (mac key : bytes)
  : option error * internal_ake.Server :=
  (None, internal_ake.mkServer mac key).

(** The server of the default configuration, a KE1 and a record. *)
Definition toy_server : opaque.Server :=
  opaque.NewServer (prim := toy_primitives) None.

Definition toy_ke1 : message.KE1 :=
  message.mkKE1 (cred.mkCredentialRequest [x09]) [x0a] [x03].

Definition toy_record : opaque.ClientRecord :=
  opaque.mkClientRecord [x2a] None
    (message.mkRegistrationUpload [x07] [x05] [x00; x00]) [].

End Toy.

(** ** Notions that the statements use *)

(** The value of a successful result, transformed. *)
Definition result_map {A B} (f : A -> B) (x : result A) : result B :=
  match x with
  | Ok a => Ok (f a)
  | Err e => Err e
  end.

(** [b ^ (1 << k)]: the byte [b] with its bit [k] flipped. *)
Definition flip_bit_byte (k : nat) (b : byte) : byte :=
  byte_of_Z (Z.lxor (Z_of_byte b) (Z.shiftl 1 (Z.of_nat k))).

(** The byte string [m] with one bit flipped: bit [i mod 8] of the byte at
    index [i / 8]. *)
Fixpoint flip_bit (i : nat) (m : bytes) : bytes :=
  match m with
  | [] => []
  | b :: m' =>
      if (i <? 8)%nat then flip_bit_byte i b :: m'
      else b :: flip_bit (i - 8) m'
  end.

(** The inputs on which [buildLabel] is defined: a length of two bytes, a
    label that with the seven bytes of the prefix has a length of one byte,
    and a context whose length has one byte. *)
Definition label_bounds (length : Z) (label context : bytes) : Prop :=
  0 <= length < 65536 /\ len label <= 248 /\ len context <= 255.

(** The key schedule of the AKE as the specification writes it, to compare
    with [internal_ake.deriveKeys].  It is written over the KDF [h] of the
    configuration and the size [Hash_size] that the labels carry; an
    [Expand] of the schedule is one output of the KDF long. *)
Module KeyScheduleSpec.
Section Spec.
Context {prim : Primitives}.
Variable h : internal.KDF.
Variable Hash_size : Z.

Definition Extract (salt ikm : bytes) : bytes := internal.KDF_Extract h salt ikm.

Definition Expand (key info : bytes) : bytes :=
  internal.KDF_Expand h key info (internal.KDF_Size h).

(** label(x) = I2OSP(Hash-size, 2) || EncodeVector("OPAQUE " || x, 1)
               || EncodeVector(context, 1) *)
Definition label (x : string) (context : bytes) : option bytes :=
  let? size := encoding.I2OSP Hash_size 2 in
  let? name := encoding.EncodeVectorLen (list_byte_of_string ("OPAQUE " ++ x)) 1 in
  let? ctx := encoding.EncodeVectorLen context 1 in
  Some (size ++ name ++ ctx).

Record schedule : Type := mkSchedule {
  prk : bytes;
  handshake_secret : bytes;
  session_secret : bytes;
  server_mac_key : bytes;
  client_mac_key : bytes;
}.

Definition key_schedule (ikm preamble : bytes) : option schedule :=
  let prk := Extract [] ikm in
  let? l_hs := label "handshake secret" preamble in
  let handshake_secret := Expand prk l_hs in
  let? l_ss := label "session secret" preamble in
  let session_secret := Expand prk l_ss in
  let? l_sm := label "server mac" [] in
  let server_mac_key := Expand handshake_secret l_sm in
  let? l_cm := label "client mac" [] in
  let client_mac_key := Expand handshake_secret l_cm in
  Some (mkSchedule prk handshake_secret session_secret server_mac_key client_mac_key).

End Spec.

(** The three values of a schedule that [deriveKeys] returns. *)
Definition outputs (s : schedule) : internal_ake.macKeys * bytes :=
  (internal_ake.mkMacKeys (server_mac_key s) (client_mac_key s), session_secret s).

End KeyScheduleSpec.

(** * Properties *)

(** ** Bytes *)

Lemma byte_of_Z_of_byte (b : byte) : byte_of_Z (Z_of_byte b) = b.
Proof. destruct b; reflexivity. Qed.

Lemma Z_of_byte_range (b : byte) : 0 <= Z_of_byte b < 256.
Proof.
  unfold Z_of_byte. pose proof (Byte.to_N_bounded b). lia.
Qed.

Lemma Z_of_byte_inj (a b : byte) : Z_of_byte a = Z_of_byte b -> a = b.
Proof.
  intros H. rewrite <- (byte_of_Z_of_byte a), <- (byte_of_Z_of_byte b).
  now rewrite H.
Qed.

Lemma len_nonneg {A} (l : list A) : 0 <= len l.
Proof. unfold len; lia. Qed.

Lemma len_app {A} (a b : list A) : len (a ++ b) = len a + len b.
Proof. unfold len. rewrite length_app. lia. Qed.

(** ** Configuration: the seven-byte encoding *)

Section ConfigurationEncoding.
Import opaque.

Lemma I2OSP_OS2IP_1 (b : byte) :
  encoding.I2OSP (encoding.OS2IP [b]) 1 = Some [b].
Proof.
  unfold encoding.OS2IP, encoding.I2OSP; cbn [fold_left].
  pose proof (Z_of_byte_range b) as Hb.
  replace (0 * 256 + Z_of_byte b) with (Z_of_byte b) by lia.
  change (256 ^ Z.of_nat 1) with 256.
  destruct (Z.leb_spec 0 (Z_of_byte b)); [|lia].
  destruct (Z.ltb_spec (Z_of_byte b) 256); [|lia].
  cbn [andb encoding.be_bytes app].
  rewrite Z.mod_small by lia.
  now rewrite byte_of_Z_of_byte.
Qed.

(** C3.  Every byte string of length exactly 7 deserializes to a
    Configuration, and serializing that Configuration gives the same seven
    bytes back. *)
Theorem Serialize_DeserializeConfiguration (b : bytes) :
  List.length b = 7%nat ->
  exists c : Configuration,
    DeserializeConfiguration b = Ok c /\ Serialize c = Some b.
Proof.
  intros Hlen.
  destruct b as [|b0 [|b1 [|b2 [|b3 [|b4 [|b5 [|b6 [|b7 b]]]]]]]]; try discriminate.
  eexists; split; [reflexivity|].
  unfold Serialize; cbn [cNonceLen cGroup cKDF cMAC cHash cMHF cMode nth skipn].
  rewrite I2OSP_OS2IP_1; cbn [obind nth].
  now rewrite !byte_of_Z_of_byte.
Qed.

(** The encoding of a configuration with the identifiers 1, 2, 2, 2, 2,
    the internal mode and nonces of 32 bytes. *)
Lemma Serialize_DeserializeConfiguration_witness :
  exists c : Configuration,
    DeserializeConfiguration [x01; x02; x02; x02; x02; x01; x20] = Ok c
    /\ Serialize c = Some [x01; x02; x02; x02; x02; x01; x20].
Proof.
  apply (Serialize_DeserializeConfiguration [x01; x02; x02; x02; x02; x01; x20]).
  reflexivity.
Defined.

End ConfigurationEncoding.

(** ** Machine integers *)

Lemma int_wrap_small (z : Z) : in_int_range z -> int_wrap z = z.
Proof.
  unfold in_int_range, int_wrap, int_min, int_max, int_bits.
  intros H. rewrite Z.mod_small; lia.
Qed.

Lemma int_wrap_add_l (a b : Z) : int_wrap (int_wrap a + b) = int_wrap (a + b).
Proof.
  unfold int_wrap.
  replace ((a - int_min) mod 2 ^ int_bits + int_min + b - int_min)
    with ((a - int_min) mod 2 ^ int_bits + b) by lia.
  rewrite Zplus_mod_idemp_l.
  f_equal. f_equal. lia.
Qed.

Lemma int_add_assoc_wrap (a b c : Z) : int_add (int_add a b) c = int_wrap (a + b + c).
Proof. unfold int_add. apply int_wrap_add_l. Qed.

Lemma int_add_0_r (a b : Z) : int_add (int_add a b) 0 = int_add a b.
Proof.
  rewrite int_add_assoc_wrap. unfold int_add. f_equal. lia.
Qed.

(** ** Envelope size *)

Section EnvelopeSize.
Context {prim : Primitives}.
Import opaque.

Lemma EnvelopeSize_unfold (c : Configuration) :
  internal.pEnvelopeSize (toInternal c) =
  int_wrap (cNonceLen c + HashSize (cMAC c)
            + (if Byte.eqb (cMode c) External then ScalarLength (cGroup c) else 0)).
Proof.
  unfold toInternal, envelopeSize; cbn.
  apply int_add_assoc_wrap.
Qed.

(** C5.  The EnvelopeSize derived from a Configuration is NonceLen +
    MAC-size in the internal mode and NonceLen + MAC-size + scalar-length
    in the external mode, the sums being those of Go's [int]; two
    Configurations that agree on Mode, NonceLen, MAC and Group have the
    same EnvelopeSize, whatever their other fields; and the sums are the
    mathematical ones whenever they are in the range of [int]. *)
Theorem EnvelopeSize_of_Configuration (c : Configuration) :
  (cMode c = Internal ->
   internal.pEnvelopeSize (toInternal c) = int_add (cNonceLen c) (HashSize (cMAC c)))
  /\ (cMode c = External ->
      internal.pEnvelopeSize (toInternal c) =
      int_add (int_add (cNonceLen c) (HashSize (cMAC c))) (ScalarLength (cGroup c)))
  /\ (forall c' : Configuration,
         cMode c' = cMode c -> cNonceLen c' = cNonceLen c ->
         cMAC c' = cMAC c -> cGroup c' = cGroup c ->
         internal.pEnvelopeSize (toInternal c') = internal.pEnvelopeSize (toInternal c))
  /\ (let inner := if Byte.eqb (cMode c) External then ScalarLength (cGroup c) else 0 in
      in_int_range (cNonceLen c + HashSize (cMAC c) + inner) ->
      internal.pEnvelopeSize (toInternal c) = cNonceLen c + HashSize (cMAC c) + inner).
Proof.
  repeat split.
  - intros Hm. unfold toInternal, envelopeSize; cbn. rewrite Hm; cbn.
    apply int_add_0_r.
  - intros Hm. unfold toInternal, envelopeSize; cbn. now rewrite Hm.
  - intros c' Hm Hn Hmac Hg. rewrite !EnvelopeSize_unfold.
    now rewrite Hm, Hn, Hmac, Hg.
  - intros inner H. rewrite EnvelopeSize_unfold. now apply int_wrap_small.
Qed.

(** The sums are the mathematical ones whenever they are in the range of
    [int]. *)
Lemma EnvelopeSize_exact (c : Configuration) :
  let inner := if Byte.eqb (cMode c) External then ScalarLength (cGroup c) else 0 in
  in_int_range (cNonceLen c + HashSize (cMAC c) + inner) ->
  internal.pEnvelopeSize (toInternal c) = cNonceLen c + HashSize (cMAC c) + inner.
Proof.
  intros inner H. rewrite EnvelopeSize_unfold. now apply int_wrap_small.
Qed.

(** The derived size is a length for every configuration that meets the
    invariant of the data model (NonceLen >= 16), with the sizes of the
    tables not negative and the sum in the range of [int]. *)
Lemma EnvelopeSize_nonneg (c : Configuration) :
  16 <= cNonceLen c ->
  0 <= HashSize (cMAC c) ->
  0 <= ScalarLength (cGroup c) ->
  cNonceLen c + HashSize (cMAC c) + ScalarLength (cGroup c) <= int_max ->
  0 <= internal.pEnvelopeSize (toInternal c).
Proof.
  intros Hn Hm Hs Hmax. rewrite EnvelopeSize_exact.
  - destruct (Byte.eqb (cMode c) External); lia.
  - unfold in_int_range. change int_min with (- 9223372036854775808).
    destruct (Byte.eqb (cMode c) External); lia.
Qed.

(** C8.  For a Configuration whose derived EnvelopeSize is a length (it is
    not negative), GetFakeEnvelope returns a byte string of that length in
    which every byte is zero. *)
Theorem GetFakeEnvelope_zero (c : Configuration) :
  0 <= internal.pEnvelopeSize (toInternal c) ->
  exists e : bytes,
    GetFakeEnvelope c = Some e
    /\ len e = internal.pEnvelopeSize (toInternal c)
    /\ Forall (fun b => b = x00) e.
Proof.
  intros Hpos. unfold GetFakeEnvelope, make_bytes.
  destruct (Z.ltb_spec (internal.pEnvelopeSize (toInternal c)) 0); [lia|].
  eexists; split; [reflexivity|]. split.
  - unfold len. rewrite repeat_length. lia.
  - apply Forall_forall. intros b Hb. now apply repeat_spec in Hb.
Qed.

(** C10.  NewServer(nil) builds the server of the default configuration:
    the Ristretto255/SHA-512 group for OPRF and AKE, SHA-512 as KDF, MAC
    and Hash, Scrypt as MHF, nonces of 32 bytes, and the envelope size of
    the internal mode. *)
Theorem NewServer_nil :
  NewServer None = NewServer (Some DefaultConfiguration)
  /\ Parameters (NewServer None) = toInternal DefaultConfiguration
  /\ Ake (NewServer None) = internal_ake.NewServer
  /\ internal.pGroup (Parameters (NewServer None)) = RistrettoSha512
  /\ internal.pOPRF (Parameters (NewServer None)) = RistrettoSha512
  /\ internal.pKDF (Parameters (NewServer None)) = internal.mkKDF SHA512
  /\ internal.pMAC (Parameters (NewServer None)) = internal.mkMac SHA512
  /\ internal.pHash (Parameters (NewServer None)) = internal.mkHash SHA512
  /\ internal.pMHF (Parameters (NewServer None)) = internal.mkMHF Scrypt
  /\ internal.pNonceLen (Parameters (NewServer None)) = 32
  /\ cMode DefaultConfiguration = Internal
  /\ internal.pEnvelopeSize (Parameters (NewServer None)) = int_add 32 (HashSize SHA512).
Proof.
  repeat split.
  unfold NewServer; cbn [Parameters].
  rewrite EnvelopeSize_unfold.
  cbn [DefaultConfiguration cNonceLen cMAC cMode cGroup].
  change (Byte.eqb Internal External) with false; cbn iota.
  unfold int_add. f_equal. lia.
Qed.

End EnvelopeSize.

(** The default configuration over the small primitives: EnvelopeSize is
    32 + 64. *)
Lemma EnvelopeSize_of_Configuration_witness :
  internal.pEnvelopeSize (opaque.toInternal (prim := Toy.toy_primitives)
                            (opaque.DefaultConfiguration (prim := Toy.toy_primitives))) = 96.
Proof.
  rewrite (proj1 (EnvelopeSize_of_Configuration (prim := Toy.toy_primitives)
                    (opaque.DefaultConfiguration (prim := Toy.toy_primitives)))
             eq_refl).
  reflexivity.
Defined.

Lemma GetFakeEnvelope_zero_witness :
  exists e : bytes,
    opaque.GetFakeEnvelope (prim := Toy.toy_primitives)
      (opaque.DefaultConfiguration (prim := Toy.toy_primitives)) = Some e
    /\ len e = 96
    /\ Forall (fun b => b = x00) e.
Proof.
  apply (GetFakeEnvelope_zero (prim := Toy.toy_primitives)
           (opaque.DefaultConfiguration (prim := Toy.toy_primitives))).
  vm_compute. discriminate.
Defined.

(** ** The server's check of the client MAC *)

Section MacComparison.

Lemma ct_fold_zero (x : bytes) :
  forall (y : bytes) (v : Z),
    List.length x = List.length y ->
    (internal.ct_fold v x y = 0 <-> v = 0 /\ x = y).
Proof.
  induction x as [|a x IH]; intros [|b y] v Hlen; try discriminate; cbn.
  - intuition.
  - injection Hlen as Hlen. rewrite (IH y _ Hlen).
    rewrite Z.lor_eq_0_iff, Z.lxor_eq_0_iff. split.
    + intros [[Hv Hab] Hxy]. apply Z_of_byte_inj in Hab. subst. auto.
    + intros [Hv Heq]. injection Heq as -> ->. auto.
Qed.

Lemma Mac_Equal_true_iff (a b : bytes) : internal.Mac_Equal a b = true <-> a = b.
Proof.
  unfold internal.Mac_Equal, len.
  destruct (Z.eqb_spec (Z.of_nat (List.length a)) (Z.of_nat (List.length b))) as [Hl|Hl].
  - apply Nat2Z.inj in Hl. rewrite Z.eqb_eq, (ct_fold_zero a b 0 Hl). intuition.
  - split; [discriminate|]. intros ->. contradiction.
Qed.

Lemma flip_bit_byte_neq (k : nat) (b : byte) : (k < 8)%nat -> flip_bit_byte k b <> b.
Proof.
  intros Hk.
  do 8 (destruct k as [|k]; [destruct b; vm_compute; discriminate|]).
  lia.
Qed.

Lemma flip_bit_neq (m : bytes) :
  forall i : nat, (i < 8 * List.length m)%nat -> flip_bit i m <> m.
Proof.
  induction m as [|b m IH]; intros i Hi; cbn in Hi; [lia|].
  cbn [flip_bit]. destruct (Nat.ltb_spec i 8) as [Hlt|Hge].
  - intros Heq. injection Heq as Heq. now apply (flip_bit_byte_neq i b).
  - intros Heq. injection Heq as Heq. apply (IH (i - 8)%nat); [lia|assumption].
Qed.

Import opaque.

(** C2.  Whatever expected client MAC a successful Init left in the
    server, Finish(ke3) returns nil exactly when ke3.Mac is that MAC, and
    the invalid-client-mac error for every other ke3.Mac; in particular for
    the expected MAC with any single bit flipped. *)
Theorem Finish_checks_client_mac (s : Server) (ke3 : message.KE3) :
  (Finish s ke3 = None <-> message.Mac ke3 = ExpectedMAC s)
  /\ (message.Mac ke3 <> ExpectedMAC s -> Finish s ke3 = Some ErrAkeInvalidClientMac)
  /\ (forall i : nat,
         (i < 8 * List.length (ExpectedMAC s))%nat ->
         Finish s (message.mkKE3 (flip_bit i (ExpectedMAC s))) = Some ErrAkeInvalidClientMac).
Proof.
  assert (Hfin : forall k : message.KE3,
             Finish s k = None <-> message.Mac k = ExpectedMAC s).
  { intros k. unfold Finish, internal_ake.Finalize, ExpectedMAC, internal_ake.ExpectedMAC.
    destruct (internal.Mac_Equal (internal_ake.clientMac (Ake s)) (message.Mac k)) eqn:E; cbn.
    - apply Mac_Equal_true_iff in E. intuition.
    - split; [discriminate|]. intros H. symmetry in H.
      apply Mac_Equal_true_iff in H. congruence. }
  assert (Herr : forall k : message.KE3,
             message.Mac k <> ExpectedMAC s -> Finish s k = Some ErrAkeInvalidClientMac).
  { intros k Hne. destruct (Finish s k) as [e|] eqn:E.
    - unfold Finish in E. destruct (negb _) in E; congruence.
    - apply Hfin in E. contradiction. }
  repeat split.
  - apply Hfin.
  - apply Hfin.
  - apply Herr.
  - intros i Hi. apply Herr. cbn. now apply flip_bit_neq.
Qed.

End MacComparison.

(** A server that expects the MAC 01 02: the MAC itself is accepted, and
    the MAC with bit 0 flipped (00 02) is refused. *)
Lemma Finish_checks_client_mac_witness :
  let s := opaque.mkServer
             (opaque.toInternal (prim := Toy.toy_primitives)
                (opaque.DefaultConfiguration (prim := Toy.toy_primitives)))
             (internal_ake.mkServer [x01; x02] []) in
  opaque.Finish s (message.mkKE3 [x01; x02]) = None
  /\ opaque.Finish s (message.mkKE3 [x00; x02]) = Some ErrAkeInvalidClientMac.
Proof.
  intros s. split.
  - apply (proj1 (Finish_checks_client_mac s (message.mkKE3 [x01; x02]))). reflexivity.
  - apply (proj1 (proj2 (Finish_checks_client_mac s (message.mkKE3 [x00; x02])))).
    cbn. discriminate.
Defined.

(** ** The 3DH input keying material *)

Section ThreeDH.
Context {G : group.Group} {L : group.GroupLaws G}.
Import internal_ake.

Lemma decodeKeys_valid (P Q : group.Element) :
  group.DecodeElement (group.Bytes P) = Ok P ->
  group.DecodeElement (group.Bytes Q) = Ok Q ->
  decodeKeys (group.Bytes P) (group.Bytes Q) = Ok (P, Q).
Proof.
  intros HP HQ. unfold decodeKeys. now rewrite HP, HQ.
Qed.

(** C1.  With epk_c = base x esk_c, epk_s = base x esk_s, pk_c = base x
    sk_c and pk_s = base x sk_s, and the four public keys sent as their
    encodings (which decode to the keys), the client's IKM and the server's
    IKM are the same byte string. *)
Theorem ikm_client_server_agree (esk_c esk_s sk_c sk_s : group.Scalar) :
  let epk_c := group.Mult group.Base esk_c in
  let epk_s := group.Mult group.Base esk_s in
  let pk_c := group.Mult group.Base sk_c in
  let pk_s := group.Mult group.Base sk_s in
  group.DecodeElement (group.Bytes epk_c) = Ok epk_c ->
  group.DecodeElement (group.Bytes epk_s) = Ok epk_s ->
  group.DecodeElement (group.Bytes pk_c) = Ok pk_c ->
  group.DecodeElement (group.Bytes pk_s) = Ok pk_s ->
  exists k : bytes,
    ikm client esk_c sk_c (group.Bytes epk_s) (group.Bytes pk_s) = Ok k
    /\ ikm server esk_s sk_s (group.Bytes epk_c) (group.Bytes pk_c) = Ok k.
Proof.
  intros epk_c epk_s pk_c pk_s Hec Hes Hpc Hps.
  unfold ikm.
  rewrite (decodeKeys_valid epk_s pk_s Hes Hps), (decodeKeys_valid epk_c pk_c Hec Hpc).
  cbn [Bool.eqb client server].
  eexists; split; [reflexivity|].
  unfold k3dh, epk_c, epk_s, pk_c, pk_s; cbn zeta.
  rewrite (group.Mult_comm group.Base esk_s esk_c).
  rewrite (group.Mult_comm group.Base sk_s esk_c).
  rewrite (group.Mult_comm group.Base esk_s sk_c).
  reflexivity.
Qed.

End ThreeDH.

Lemma toy_group_laws : group.GroupLaws Toy.toy_group.
Proof.
  constructor. intros P a b. cbn.
  rewrite !Z.mul_mod_idemp_l by lia.
  f_equal. lia.
Defined.

(** The exchange over the small group with the scalars 3, 5, 7 and 11. *)
Lemma ikm_client_server_agree_witness :
  exists k : bytes,
    internal_ake.ikm (G := Toy.toy_group) internal_ake.client 3 7 [x05] [x0b] = Ok k
    /\ internal_ake.ikm (G := Toy.toy_group) internal_ake.server 5 11 [x03] [x07] = Ok k.
Proof.
  apply (ikm_client_server_agree (G := Toy.toy_group) (L := toy_group_laws) 3 5 7 11);
    reflexivity.
Defined.

(** ** The per-user OPRF key *)

Section OprfKey.
Context {prim : Primitives}.
Import opaque.

(** What [credentialResponse] puts in the field [Data], whatever the random
    source, the record and the server's public key are. *)
Lemma credentialResponse_Data (s : Server) (req : cred.CredentialRequest)
    (pk : bytes) (record : message.RegistrationUpload)
    (credentialIdentifier oprfSeed maskingNonce : bytes) (r : Rng) :
  result_map cred.rData
    (fst (credentialResponse s req pk record credentialIdentifier oprfSeed maskingNonce r))
  = result_map (fun z => internal.PadPoint z (internal.pGroup (Parameters s)))
      (wrap_err "oprfResponse"
         (oprfResponse s oprfSeed credentialIdentifier (cred.Data req))).
Proof.
  unfold credentialResponse, bind, lift.
  destruct (oprfResponse s oprfSeed credentialIdentifier (cred.Data req)) as [z|e]; cbn;
    [|reflexivity].
  destruct (len maskingNonce =? 0); cbn; reflexivity.
Qed.

Lemma RegistrationResponse_Data (s : Server) (req : message.RegistrationRequest)
    (pk credentialIdentifier oprfSeed : bytes) :
  result_map message.respData (RegistrationResponse s req pk credentialIdentifier oprfSeed)
  = result_map (fun z => internal.PadPoint z (internal.pGroup (Parameters s)))
      (wrap_err " RegistrationResponse"
         (oprfResponse s oprfSeed credentialIdentifier (message.reqData req))).
Proof.
  unfold RegistrationResponse.
  destruct (oprfResponse s oprfSeed credentialIdentifier (message.reqData req));
    reflexivity.
Qed.

(** C4.  Under one configuration (the parameters [p]), an oprf-seed and a
    credential-identifier determine one OPRF key [ku]: in any two runs, on
    servers in any states, with any random sources, records, public keys
    and masking nonces, oprfResponse evaluates the blinded element under
    that same [ku], and the evaluated elements that RegistrationResponse
    and the credential response return for equal blinded elements are
    equal. *)
Theorem oprf_key_deterministic (p : internal.Parameters)
    (oprfSeed credentialIdentifier : bytes) :
  exists ku : @group.Scalar (group_of (internal.pOPRF p)),
    forall (a1 a2 : internal_ake.Server) (element : bytes),
      let s1 := mkServer p a1 in
      let s2 := mkServer p a2 in
      oprfResponse s1 oprfSeed credentialIdentifier element
        = Evaluate (internal.pOPRF p) ku element
      /\ oprfResponse s2 oprfSeed credentialIdentifier element
        = Evaluate (internal.pOPRF p) ku element
      /\ (forall pk1 pk2 : bytes,
             result_map message.respData
               (RegistrationResponse s1 (message.mkRegistrationRequest element)
                  pk1 credentialIdentifier oprfSeed)
             = result_map message.respData
                 (RegistrationResponse s2 (message.mkRegistrationRequest element)
                    pk2 credentialIdentifier oprfSeed))
      /\ (forall (pk1 pk2 : bytes) (rec1 rec2 : message.RegistrationUpload)
                 (nonce1 nonce2 : bytes) (r1 r2 : Rng),
             result_map cred.rData
               (fst (credentialResponse s1 (cred.mkCredentialRequest element)
                       pk1 rec1 credentialIdentifier oprfSeed nonce1 r1))
             = result_map cred.rData
                 (fst (credentialResponse s2 (cred.mkCredentialRequest element)
                         pk2 rec2 credentialIdentifier oprfSeed nonce2 r2))).
Proof.
  exists (DeriveKey (internal.pOPRF p)
            (internal.KDF_Expand (internal.pKDF p) oprfSeed
               (encoding.SuffixString credentialIdentifier tag.OprfKey)
               (ScalarLength (internal.pGroup p)))
            (list_byte_of_string tag.DeriveKeyPair)).
  intros a1 a2 element s1 s2.
  split; [reflexivity|]. split; [reflexivity|]. split.
  - intros pk1 pk2. now rewrite !RegistrationResponse_Data.
  - intros. now rewrite !credentialResponse_Data.
Qed.

End OprfKey.

(** Two runs of [credentialResponse] over the small primitives, with random
    sources at different positions: the masking nonces differ, the
    evaluated elements are the same. *)
Example credentialResponse_two_runs :
  let s := opaque.NewServer (prim := Toy.toy_primitives) None in
  let req := cred.mkCredentialRequest [x09] in
  let rec := message.mkRegistrationUpload [x04] [x05] [x00; x00] in
  let run r := fst (opaque.credentialResponse (prim := Toy.toy_primitives)
                      s req [x07] rec [x2a] [x03] [] r) in
  result_map cred.rData (run Toy.counting_rng)
  = result_map cred.rData (run (mkRng (rng_tape Toy.counting_rng) 5))
  /\ result_map cred.MaskingNonce (run Toy.counting_rng)
     <> result_map cred.MaskingNonce (run (mkRng (rng_tape Toy.counting_rng) 5)).
Proof.
  cbv zeta. split.
  - vm_compute. reflexivity.
  - vm_compute. discriminate.
Qed.

(** ** The key schedule *)

Lemma list_byte_of_string_app (a b : string) :
  list_byte_of_string (a ++ b) = list_byte_of_string a ++ list_byte_of_string b.
Proof.
  unfold list_byte_of_string.
  induction a as [|c a IH]; cbn; [reflexivity|].
  now rewrite IH.
Qed.

Lemma I2OSP_Some (n : Z) (w : nat) :
  0 <= n < 256 ^ Z.of_nat w -> encoding.I2OSP n w = Some (encoding.be_bytes w n).
Proof.
  intros [H0 H1]. unfold encoding.I2OSP.
  destruct (Z.leb_spec 0 n); [|lia].
  destruct (Z.ltb_spec n (256 ^ Z.of_nat w)); [|lia].
  reflexivity.
Qed.

Lemma EncodeVectorLen_Some (b : bytes) (w : nat) :
  len b < 256 ^ Z.of_nat w ->
  encoding.EncodeVectorLen b w = Some (encoding.be_bytes w (len b) ++ b).
Proof.
  intros H. unfold encoding.EncodeVectorLen.
  rewrite I2OSP_Some by (pose proof (len_nonneg b); lia).
  reflexivity.
Qed.

Section KeySchedule.
Context {prim : Primitives}.
Import internal_ake.

Lemma buildLabel_label (h : internal.KDF) (x : string) (context : bytes) :
  buildLabel (internal.KDF_Size h) (list_byte_of_string x) context
  = KeyScheduleSpec.label (internal.KDF_Size h) x context.
Proof.
  unfold buildLabel, KeyScheduleSpec.label, tag.LabelPrefix.
  now rewrite list_byte_of_string_app.
Qed.

Lemma expandLabel_label (h : internal.KDF) (secret : bytes) (x : string) (context : bytes) :
  expandLabel h secret (list_byte_of_string x) context
  = let? l := KeyScheduleSpec.label (internal.KDF_Size h) x context in
    Some (KeyScheduleSpec.Expand h secret l).
Proof.
  unfold expandLabel. now rewrite buildLabel_label.
Qed.

Lemma label_Some (size : Z) (x : string) (context : bytes) :
  0 <= size < 65536 ->
  len (list_byte_of_string ("OPAQUE " ++ x)) < 256 ->
  len context < 256 ->
  KeyScheduleSpec.label size x context
  = Some (encoding.be_bytes 2 size
          ++ (encoding.be_bytes 1 (len (list_byte_of_string ("OPAQUE " ++ x)))
              ++ list_byte_of_string ("OPAQUE " ++ x))
          ++ (encoding.be_bytes 1 (len context) ++ context)).
Proof.
  intros Hs Hx Hc. unfold KeyScheduleSpec.label.
  rewrite I2OSP_Some by (change (256 ^ Z.of_nat 2) with 65536; lia).
  rewrite !EncodeVectorLen_Some by (change (256 ^ Z.of_nat 1) with 256; lia).
  reflexivity.
Qed.

(** C6, as amended.  For every ikm and preamble, [deriveKeys] returns the
    server MAC key, the client MAC key and the session secret of the key
    schedule that the specification writes: prk = Extract(no salt, ikm);
    handshake-secret and session-secret are the expansions of prk under the
    labels "handshake secret" and "session secret" with the preamble as
    context; the two MAC keys are the expansions of handshake-secret under
    "server mac" and "client mac" with the empty context; label(x) =
    I2OSP(size, 2) || EncodeVector("OPAQUE " || x, 1) ||
    EncodeVector(context, 1), where size is the output size of the KDF (the
    length of every expansion of the schedule).  The schedule is defined,
    and [deriveKeys] returns, whenever that size fits in two bytes and the
    preamble's length in one. *)
Theorem deriveKeys_key_schedule (h : internal.KDF) (ikm preamble : bytes) :
  deriveKeys h ikm preamble
  = option_map KeyScheduleSpec.outputs
      (KeyScheduleSpec.key_schedule h (internal.KDF_Size h) ikm preamble)
  /\ (0 <= internal.KDF_Size h < 65536 ->
      len preamble < 256 ->
      exists s : KeyScheduleSpec.schedule,
        KeyScheduleSpec.key_schedule h (internal.KDF_Size h) ikm preamble = Some s
        /\ deriveKeys h ikm preamble = Some (KeyScheduleSpec.outputs s)).
Proof.
  assert (Heq : deriveKeys h ikm preamble
                = option_map KeyScheduleSpec.outputs
                    (KeyScheduleSpec.key_schedule h (internal.KDF_Size h) ikm preamble)).
  { unfold deriveKeys, deriveSecret, KeyScheduleSpec.key_schedule.
    unfold tag.Handshake, tag.Session, tag.MacServer, tag.MacClient.
    unfold KeyScheduleSpec.Extract.
    rewrite expandLabel_label.
    destruct (KeyScheduleSpec.label (internal.KDF_Size h) "handshake secret" preamble)
      as [l1|]; cbn [obind option_map]; [|reflexivity].
    rewrite expandLabel_label.
    destruct (KeyScheduleSpec.label (internal.KDF_Size h) "session secret" preamble)
      as [l2|]; cbn [obind option_map]; [|reflexivity].
    rewrite expandLabel_label.
    destruct (KeyScheduleSpec.label (internal.KDF_Size h) "server mac" [])
      as [l3|]; cbn [obind option_map]; [|reflexivity].
    rewrite expandLabel_label.
    destruct (KeyScheduleSpec.label (internal.KDF_Size h) "client mac" [])
      as [l4|]; cbn [obind option_map]; reflexivity. }
  split; [exact Heq|].
  intros Hs Hp. rewrite Heq.
  unfold KeyScheduleSpec.key_schedule.
  rewrite !label_Some by (try assumption; vm_compute; reflexivity).
  cbn [obind option_map]. eexists; split; reflexivity.
Qed.

End KeySchedule.

(** The schedule over the small primitives, whose hash 2 is 64 bytes long,
    from a one-byte ikm and a one-byte preamble. *)
Lemma deriveKeys_key_schedule_witness :
  exists s : KeyScheduleSpec.schedule,
    KeyScheduleSpec.key_schedule (prim := Toy.toy_primitives)
      (internal.mkKDF 2) 64 [x01] [x02] = Some s
    /\ internal_ake.deriveKeys (prim := Toy.toy_primitives)
         (internal.mkKDF 2) [x01] [x02]
       = Some (KeyScheduleSpec.outputs s).
Proof.
  apply (proj2 (deriveKeys_key_schedule (prim := Toy.toy_primitives)
                  (internal.mkKDF 2) [x01] [x02])).
  - vm_compute. split; [discriminate|reflexivity].
  - vm_compute. reflexivity.
Defined.

(** C6, as the specification states it, with the size of the configuration's
    Hash in the labels: it fails for a configuration whose KDF and Hash
    differ in output size.  Here the KDF is the 32-byte hash 1 and the Hash the
    64-byte hash 2 of the small primitives; [core3DH] derives the keys with
    [deriveKeys(p.KDF, ikm, preamble)], whose labels start with
    I2OSP(32, 2), and the labels of the specification start with
    I2OSP(64, 2). *)
Lemma key_schedule_Hash_size_counterexample :
  let p := opaque.toInternal (prim := Toy.toy_primitives)
            (opaque.mkConfiguration x01 1 2 2 2 opaque.Internal [] 32) in
  internal.KDF_Size (prim := Toy.toy_primitives) (internal.pKDF p) = 32
  /\ internal.Hash_Size (prim := Toy.toy_primitives) (internal.pHash p) = 64
  /\ internal_ake.buildLabel (internal.KDF_Size (prim := Toy.toy_primitives) (internal.pKDF p))
       (list_byte_of_string "handshake secret") [x02]
     <> KeyScheduleSpec.label
          (internal.Hash_Size (prim := Toy.toy_primitives) (internal.pHash p))
          "handshake secret" [x02]
  /\ internal_ake.deriveKeys (prim := Toy.toy_primitives) (internal.pKDF p) [x01] [x02]
     <> option_map KeyScheduleSpec.outputs
          (KeyScheduleSpec.key_schedule (prim := Toy.toy_primitives) (internal.pKDF p)
             (internal.Hash_Size (prim := Toy.toy_primitives) (internal.pHash p))
             [x01] [x02]).
Proof.
  intros p. repeat split; vm_compute; discriminate.
Qed.

(** ** The wire layout of KE2 *)

(** C7.  The encoding of KE2 is the encoding of its credential response
    followed by the server nonce, the server's ephemeral public key and the
    server MAC: evaluated-element || masking-nonce || masked-response ||
    server-nonce || server-ephemeral-pubkey || server-mac, and no other
    byte. *)
Theorem KE2_Serialize_layout (m : message.KE2) :
  message.KE2_Serialize m
  = cred.CredentialResponse_Serialize (message.KE2_CredentialResponse m)
    ++ message.NonceS m ++ message.EpkS m ++ message.KE2_Mac m
  /\ message.KE2_Serialize m
     = cred.rData (message.KE2_CredentialResponse m)
       ++ cred.MaskingNonce (message.KE2_CredentialResponse m)
       ++ cred.MaskedResponse (message.KE2_CredentialResponse m)
       ++ message.NonceS m ++ message.EpkS m ++ message.KE2_Mac m
  /\ len (message.KE2_Serialize m)
     = len (cred.rData (message.KE2_CredentialResponse m))
       + len (cred.MaskingNonce (message.KE2_CredentialResponse m))
       + len (cred.MaskedResponse (message.KE2_CredentialResponse m))
       + len (message.NonceS m) + len (message.EpkS m) + len (message.KE2_Mac m).
Proof.
  unfold message.KE2_Serialize, cred.CredentialResponse_Serialize,
    encoding.Concat, encoding.Concat3.
  split; [reflexivity|]. split.
  - now rewrite <- !app_assoc.
  - rewrite !len_app. lia.
Qed.

(** ** The hooks that force the ephemeral scalar and the nonce *)

Section TestHooks.
Context {G : group.Group}.

(** What the hooks do when they are called with a scalar and a nonce after
    the ephemeral scalar has been set: [Ake.Initialize] keeps the scalar
    that is set and ignores the new one, and returns the nonce that it is
    given; [setValues] keeps nothing and returns the scalar and the nonce
    that it is given. *)
Theorem hooks_second_call
    (hsh : Hashing) (ss : bytes) (e : group.Scalar) (epk : option group.Element)
    (keys : option ake.Keys)
    (scalar2 : group.Scalar) (b : byte) (nonce2 : bytes) (nonceLen : Z) (r : Rng) :
  ake.Initialize (ake.mkAke hsh ss (Some e) epk keys) (Some scalar2) (Some (b :: nonce2))
    nonceLen r
  = (Ok (b :: nonce2,
         ake.mkAke hsh ss (Some e) (Some (group.Mult group.Base e)) keys), r)
  /\ internal_ake.setValues (Some scalar2) (b :: nonce2) nonceLen r
     = (Ok (scalar2, b :: nonce2), r).
Proof.
  split.
  - reflexivity.
  - unfold internal_ake.setValues, bind, ret.
    assert (Hl : (len (b :: nonce2) =? 0) = false).
    { apply Z.eqb_neq. unfold len; cbn [List.length]. lia. }
    now rewrite Hl.
Qed.

End TestHooks.

(** Two calls of [Ake.Initialize] over the small group: the first forces
    the scalar 3 and the nonce 01, the second is given the scalar 5 and the
    nonce 02.  The scalar stays 3; the nonce that comes back is 02. *)
Lemma Initialize_twice :
  let a0 := ake.mkAke (G := Toy.toy_group) 2 [] None None None in
  exists (a1 a2 : ake.Ake (G := Toy.toy_group)) (r1 r2 : Rng),
    ake.Initialize a0 (Some 3) (Some [x01]) 32 Toy.counting_rng = (Ok ([x01], a1), r1)
    /\ ake.Initialize a1 (Some 5) (Some [x02]) 32 r1 = (Ok ([x02], a2), r2)
    /\ ake.Esk a1 = Some 3
    /\ ake.Esk a2 = Some 3
    /\ ake.Epk a2 = ake.Epk a1.
Proof.
  intros a0. do 4 eexists. repeat split.
Qed.

Section TestHooksState.
Context {G : group.Group}.

(** A call of [Ake.Initialize] on a state whose scalar is set. *)
Lemma Initialize_set (hsh : Hashing) (ss : bytes) (e : group.Scalar)
    (epk : option group.Element) (keys : option ake.Keys)
    (scalar : option group.Scalar) (nonce : option bytes) (nonceLen : Z) (r : Rng) :
  ake.Initialize (ake.mkAke hsh ss (Some e) epk keys) scalar nonce nonceLen r
  = let a' := ake.mkAke hsh ss (Some e) (Some (group.Mult group.Base e)) keys in
    match nonce with
    | Some m => (Ok (m, a'), r)
    | None => (Ok (fst (rng_read (Z.to_nat nonceLen) r), a'),
               snd (rng_read (Z.to_nat nonceLen) r))
    end.
Proof. destruct nonce; reflexivity. Qed.

(** C9, as amended.  A second call of [Ake.Initialize], after a first call
    has set the ephemeral scalar, has no effect on the state: the state
    that the first call left (Esk, Epk = base x Esk and the other fields)
    is the state after the second call, and the newly supplied scalar is
    ignored (the call does what it does without a scalar).  The nonce is
    not part of that state: the call returns the nonce that it is given,
    reading nothing from the random source, and nonceLen random bytes for a
    nil nonce.  [setValues] has no state: it returns the scalar and the
    (non-empty) nonce that it is given. *)
Theorem Initialize_second_call (a : ake.Ake) (scalar1 : option group.Scalar)
    (nonce1 : option bytes) (nonceLen1 : Z) (r0 : Rng) :
  (exists (n1 : bytes) (a1 : ake.Ake) (r1 : Rng),
      ake.Initialize a scalar1 nonce1 nonceLen1 r0 = (Ok (n1, a1), r1)
      /\ (exists e, ake.Esk a1 = Some e /\ ake.Epk a1 = Some (group.Mult group.Base e))
      /\ forall (scalar2 : option group.Scalar) (nonce2 : option bytes)
                (nonceLen2 : Z) (r : Rng),
           exists (n2 : bytes) (r2 : Rng),
             ake.Initialize a1 scalar2 nonce2 nonceLen2 r = (Ok (n2, a1), r2)
             /\ ake.Initialize a1 None nonce2 nonceLen2 r = (Ok (n2, a1), r2)
             /\ (forall m : bytes, nonce2 = Some m -> n2 = m /\ r2 = r)
             /\ (nonce2 = None -> (n2, r2) = rng_read (Z.to_nat nonceLen2) r))
  /\ (forall (sc : group.Scalar) (b : byte) (m : bytes) (nonceLen : Z) (r : Rng),
         internal_ake.setValues (Some sc) (b :: m) nonceLen r = (Ok (sc, b :: m), r)).
Proof.
  split.
  - assert (Hsecond : forall hsh ss e keys,
               let a1 := ake.mkAke hsh ss (Some e) (Some (group.Mult group.Base e)) keys in
               forall scalar2 nonce2 nonceLen2 r,
               exists n2 r2,
                 ake.Initialize a1 scalar2 nonce2 nonceLen2 r = (Ok (n2, a1), r2)
                 /\ ake.Initialize a1 None nonce2 nonceLen2 r = (Ok (n2, a1), r2)
                 /\ (forall m : bytes, nonce2 = Some m -> n2 = m /\ r2 = r)
                 /\ (nonce2 = None -> (n2, r2) = rng_read (Z.to_nat nonceLen2) r)).
    { intros hsh ss e keys a1 scalar2 nonce2 nonceLen2 r. unfold a1.
      rewrite !Initialize_set. destruct nonce2 as [m|]; cbn zeta.
      - exists m, r. split; [reflexivity|]. split; [reflexivity|].
        split; [|discriminate]. intros m' Hm. injection Hm as ->. auto.
      - exists (fst (rng_read (Z.to_nat nonceLen2) r)),
               (snd (rng_read (Z.to_nat nonceLen2) r)).
        split; [reflexivity|]. split; [reflexivity|]. split; [discriminate|].
        intros _. symmetry. apply surjective_pairing. }
    destruct a as [hsh ss esk0 epk0 keys].
    unfold ake.Initialize, bind, ret, random; cbn [ake.Esk ake.Ake_Hashing
      ake.SessionSecret ake.Ake_Keys].
    destruct esk0 as [e0|]; [|destruct scalar1 as [sc|];
                               [|destruct (group.RandomScalar r0) as [s0 r0']]];
      destruct nonce1 as [n|]; cbn; do 3 eexists;
        (split; [reflexivity|]); (split; [eexists; split; reflexivity|]);
        apply Hsecond.
  - intros sc b m nonceLen r. unfold internal_ake.setValues, bind, ret.
    assert (Hl : (len (b :: m) =? 0) = false).
    { apply Z.eqb_neq. unfold len; cbn [List.length]. lia. }
    now rewrite Hl.
Qed.

End TestHooksState.

(** C9, as the specification states it, fails for the nonce.  Over the
    small group, a first call of [Ake.Initialize] forces the scalar 3 and
    the nonce 01; the second call, given the scalar 5 and the nonce 02,
    leaves the state as it is but does not keep the nonce 01: it returns
    02.  [setValues], called with 3 and 01 and then with 5 and 02, returns
    5 and 02, not 3 and 01. *)
Lemma hooks_nonce_not_kept_counterexample :
  let a0 := ake.mkAke (G := Toy.toy_group) 2 [] None None None in
  let first := ake.Initialize a0 (Some 3) (Some [x01]) 32 Toy.counting_rng in
  exists a1 : ake.Ake (G := Toy.toy_group),
    fst first = Ok ([x01], a1)
    /\ fst (ake.Initialize a1 (Some 5) (Some [x02]) 32 (snd first)) = Ok ([x02], a1)
    /\ ~ (exists a2, fst (ake.Initialize a1 (Some 5) (Some [x02]) 32 (snd first))
                     = Ok ([x01], a2))
    /\ fst (internal_ake.setValues (G := Toy.toy_group) (Some 3) [x01] 32
              Toy.counting_rng) = Ok (3, [x01])
    /\ fst (internal_ake.setValues (G := Toy.toy_group) (Some 5) [x02] 32
              Toy.counting_rng) = Ok (5, [x02])
    /\ fst (internal_ake.setValues (G := Toy.toy_group) (Some 5) [x02] 32
              Toy.counting_rng) <> Ok (3, [x01]).
Proof.
  intros a0 first. eexists. split; [reflexivity|]. split; [reflexivity|].
  split; [|split; [reflexivity|split; [reflexivity|]]].
  - intros [a2 H]. vm_compute in H. discriminate.
  - vm_compute. discriminate.
Qed.

(** * Further properties of the sources *)

(** ** Bytes *)

Lemma Z_of_byte_of_Z (z : Z) : 0 <= z < 256 -> Z_of_byte (byte_of_Z z) = z.
Proof.
  intros Hz. unfold Z_of_byte, byte_of_Z. rewrite Z.mod_small by lia.
  destruct (Byte.of_N (Z.to_N z)) as [b|] eqn:E.
  - apply Byte.to_of_N in E. rewrite E. apply Z2N.id. lia.
  - apply Byte.of_N_None_iff in E. lia.
Qed.

Lemma bytes_eqb_eq (a : bytes) : forall b : bytes, bytes_eqb a b = true <-> a = b.
Proof.
  induction a as [|x a IH]; intros [|y b]; cbn; try (split; [discriminate|discriminate]);
    try tauto.
  rewrite andb_true_iff, IH. split.
  - intros [Hxy ->]. apply Byte.byte_dec_bl in Hxy. now subst.
  - intros Heq. injection Heq as -> ->. split; [apply Byte.byte_dec_lb|]; reflexivity.
Qed.

Lemma app_inj_length {A} (a : list A) :
  forall (a' b b' : list A),
    List.length a = List.length a' -> a ++ b = a' ++ b' -> a = a' /\ b = b'.
Proof.
  induction a as [|x a IH]; intros [|x' a'] b b' Hl H; try discriminate; cbn in *.
  - auto.
  - injection Hl as Hl. injection H as -> H.
    destruct (IH a' b b' Hl H) as [-> ->]. auto.
Qed.

(** ** Configuration *)

Section ConfigurationMore.
Import opaque.

Lemma OS2IP_single (z : Z) : 0 <= z < 256 -> encoding.OS2IP [byte_of_Z z] = z.
Proof.
  intros Hz. unfold encoding.OS2IP; cbn. now rewrite Z_of_byte_of_Z.
Qed.

(** X1.  A configuration whose identifiers and nonce length fit in a byte
    serializes to seven bytes, and these deserialize to the same
    configuration with the context dropped: [Context] is not part of the
    encoding. *)
Theorem DeserializeConfiguration_Serialize (c : Configuration) :
  0 <= cKDF c < 256 -> 0 <= cMAC c < 256 -> 0 <= cHash c < 256 ->
  0 <= cMHF c < 256 -> 0 <= cNonceLen c < 256 ->
  exists b : bytes,
    Serialize c = Some b
    /\ List.length b = 7%nat
    /\ DeserializeConfiguration b
       = Ok (mkConfiguration (cGroup c) (cKDF c) (cMAC c) (cHash c) (cMHF c)
               (cMode c) [] (cNonceLen c)).
Proof.
  intros Hk Hm Hh Hf Hn.
  unfold Serialize. rewrite I2OSP_Some by (change (256 ^ Z.of_nat 1) with 256; lia).
  cbn [obind encoding.be_bytes app nth].
  eexists; split; [reflexivity|]. split; [reflexivity|].
  unfold DeserializeConfiguration; cbn [len List.length nth skipn].
  change (Z.of_nat 7 =? confLength) with true; cbn [negb].
  rewrite !Z_of_byte_of_Z by lia.
  rewrite Z.mod_small by lia.
  now rewrite OS2IP_single by lia.
Qed.

Lemma DeserializeConfiguration_Serialize_witness :
  exists b : bytes,
    Serialize (mkConfiguration x01 2 2 2 2 x01 [x41] 32) = Some b
    /\ List.length b = 7%nat
    /\ DeserializeConfiguration b = Ok (mkConfiguration x01 2 2 2 2 x01 [] 32).
Proof.
  apply (DeserializeConfiguration_Serialize (mkConfiguration x01 2 2 2 2 x01 [x41] 32));
    cbn; lia.
Defined.

(** X2.  DeserializeConfiguration returns the invalid-length error for
    every input that is not seven bytes long, and nothing else fails; a
    configuration that it returns has identifiers and a nonce length
    between 0 and 255, and no context. *)
Theorem DeserializeConfiguration_result (b : bytes) :
  (DeserializeConfiguration b = Err ErrConfigurationInvalidLength
   <-> List.length b <> 7%nat)
  /\ (forall e : error,
         DeserializeConfiguration b = Err e -> e = ErrConfigurationInvalidLength)
  /\ (forall c : Configuration,
         DeserializeConfiguration b = Ok c ->
         List.length b = 7%nat
         /\ 0 <= cKDF c < 256 /\ 0 <= cMAC c < 256 /\ 0 <= cHash c < 256
         /\ 0 <= cMHF c < 256 /\ 0 <= cNonceLen c < 256
         /\ cContext c = []).
Proof.
  unfold DeserializeConfiguration, len, confLength.
  destruct (Z.eqb_spec (Z.of_nat (List.length b)) 7) as [H7|H7]; cbn [negb].
  - assert (Hl : List.length b = 7%nat) by lia.
    split; [split; [discriminate|intros; contradiction]|].
    split; [discriminate|].
    intros c Hc. injection Hc as <-. cbn.
    destruct b as [|b0 [|b1 [|b2 [|b3 [|b4 [|b5 [|b6 [|b7 b]]]]]]]]; try discriminate.
    cbn [nth skipn]. unfold encoding.OS2IP; cbn [fold_left].
    pose proof (Z_of_byte_range b1). pose proof (Z_of_byte_range b2).
    pose proof (Z_of_byte_range b3). pose proof (Z_of_byte_range b4).
    pose proof (Z_of_byte_range b6).
    repeat split; try lia.
  - split; [split; [intros _; lia|reflexivity]|].
    split; [intros e He; now injection He|discriminate].
Qed.

End ConfigurationMore.

(** ** Envelope size and fake envelope *)

Section EnvelopeSizeMore.
Context {prim : Primitives}.
Import opaque.

(** X3.  [envelopeSize] does not check the mode: every mode byte other than
    External, recognized or not, gives the size of the internal mode; and
    the external size is the internal size plus the scalar length of the
    group, when the sums are in the range of [int]. *)
Theorem envelopeSize_modes (mode : Mode) (p : internal.Parameters) :
  (mode <> External -> envelopeSize mode p = envelopeSize Internal p)
  /\ (in_int_range (internal.pNonceLen p + internal.Mac_Size (internal.pMAC p)) ->
      in_int_range (internal.pNonceLen p + internal.Mac_Size (internal.pMAC p)
                    + ScalarLength (internal.pGroup p)) ->
      envelopeSize External p
      = envelopeSize Internal p + ScalarLength (internal.pGroup p)).
Proof.
  split.
  - intros Hm. unfold envelopeSize.
    destruct (Byte.eqb mode External) eqn:E.
    + apply Byte.byte_dec_bl in E. contradiction.
    + reflexivity.
  - intros H1 H2. unfold envelopeSize.
    change (Byte.eqb External External) with true.
    change (Byte.eqb Internal External) with false. cbn iota.
    rewrite int_add_0_r, int_add_assoc_wrap.
    unfold int_add. now rewrite !int_wrap_small.
Qed.

(** X4.  The fake envelope of a deserialized configuration: for every
    seven-byte encoding whose MAC and group have sizes that are not negative
    (and not beyond the range of [int]), GetFakeEnvelope returns as many
    zero bytes as byte 6 (the nonce length) plus the MAC size, plus the
    scalar length when byte 5 is the external mode. *)
Theorem GetFakeEnvelope_of_encoding (b : bytes) (c : Configuration) :
  DeserializeConfiguration b = Ok c ->
  0 <= HashSize (cMAC c) ->
  0 <= ScalarLength (cGroup c) ->
  HashSize (cMAC c) + ScalarLength (cGroup c) <= int_max - 255 ->
  GetFakeEnvelope c
  = Some (repeat x00
            (Z.to_nat (Z_of_byte (nth 6 b x00) + HashSize (cMAC c)
                       + (if Byte.eqb (nth 5 b x00) External
                          then ScalarLength (cGroup c) else 0)))).
Proof.
  intros Hd Hm Hs Hmax.
  unfold DeserializeConfiguration in Hd.
  destruct (negb (len b =? confLength)) eqn:El; [discriminate|].
  apply negb_false_iff, Z.eqb_eq in El. unfold len, confLength in El.
  destruct b as [|b0 [|b1 [|b2 [|b3 [|b4 [|b5 [|b6 [|b7 b]]]]]]]]; cbn in El; try lia.
  injection Hd as <-. cbn [nth skipn cMAC cGroup] in *.
  unfold GetFakeEnvelope. rewrite EnvelopeSize_exact.
  - cbn [cNonceLen cMAC cMode cGroup]. unfold encoding.OS2IP; cbn [fold_left].
    replace (0 * 256 + Z_of_byte b6) with (Z_of_byte b6) by lia.
    unfold make_bytes. pose proof (Z_of_byte_range b6).
    destruct (Byte.eqb b5 External);
      match goal with |- context [?x <? 0] => destruct (Z.ltb_spec x 0) end;
      try lia; reflexivity.
  - cbn [cNonceLen cMAC cMode cGroup]. unfold encoding.OS2IP; cbn [fold_left].
    pose proof (Z_of_byte_range b6).
    unfold in_int_range. change int_min with (- 9223372036854775808).
    change int_max with 9223372036854775807 in *.
    destruct (Byte.eqb b5 External); lia.
Qed.

End EnvelopeSizeMore.

Lemma envelopeSize_modes_witness :
  let p := opaque.toInternal (prim := Toy.toy_primitives)
             (opaque.DefaultConfiguration (prim := Toy.toy_primitives)) in
  opaque.envelopeSize (prim := Toy.toy_primitives) x07 p = 96
  /\ opaque.envelopeSize (prim := Toy.toy_primitives) opaque.External p = 96 + 32.
Proof.
  intros p. split.
  - rewrite (proj1 (envelopeSize_modes (prim := Toy.toy_primitives) x07 p))
      by discriminate.
    reflexivity.
  - rewrite (proj2 (envelopeSize_modes (prim := Toy.toy_primitives) x07 p)).
    + reflexivity.
    + vm_compute. split; discriminate.
    + vm_compute. split; discriminate.
Defined.

Lemma GetFakeEnvelope_of_encoding_witness :
  opaque.GetFakeEnvelope (prim := Toy.toy_primitives)
    (opaque.mkConfiguration x01 2 2 2 2 x02 [] 32)
  = Some (repeat x00 128).
Proof.
  apply (GetFakeEnvelope_of_encoding (prim := Toy.toy_primitives)
           [x01; x02; x02; x02; x02; x02; x20]).
  - reflexivity.
  - vm_compute. discriminate.
  - vm_compute. discriminate.
  - vm_compute. discriminate.
Defined.

(** ** The labels of the key schedule *)

Section Labels.
Import internal_ake.

Lemma be_bytes_2 (n : Z) :
  encoding.be_bytes 2 n = [byte_of_Z ((n / 256) mod 256); byte_of_Z (n mod 256)].
Proof. reflexivity. Qed.

Lemma be_bytes_1 (n : Z) : encoding.be_bytes 1 n = [byte_of_Z (n mod 256)].
Proof. reflexivity. Qed.

Lemma byte_of_Z_inj (n m : Z) :
  0 <= n < 256 -> 0 <= m < 256 -> byte_of_Z n = byte_of_Z m -> n = m.
Proof.
  intros Hn Hm H. apply (f_equal Z_of_byte) in H.
  now rewrite !Z_of_byte_of_Z in H by assumption.
Qed.

Lemma be_bytes_2_inj (n m : Z) :
  0 <= n < 65536 -> 0 <= m < 65536 ->
  encoding.be_bytes 2 n = encoding.be_bytes 2 m -> n = m.
Proof.
  intros Hn Hm H. rewrite !be_bytes_2 in H. injection H as Hhi Hlo.
  apply byte_of_Z_inj in Hhi; [|apply Z.mod_pos_bound; lia ..].
  apply byte_of_Z_inj in Hlo; [|apply Z.mod_pos_bound; lia ..].
  rewrite !Z.mod_small in Hhi
    by (split; [apply Z.div_pos; lia | apply Z.div_lt_upper_bound; lia]).
  rewrite (Z.div_mod n 256), (Z.div_mod m 256) by lia. lia.
Qed.

Lemma I2OSP_None (n : Z) (w : nat) :
  ~ (0 <= n < 256 ^ Z.of_nat w) -> encoding.I2OSP n w = None.
Proof.
  intros H. unfold encoding.I2OSP.
  destruct (Z.leb_spec 0 n); destruct (Z.ltb_spec n (256 ^ Z.of_nat w)); cbn; try reflexivity.
  lia.
Qed.

(** The prefix "OPAQUE " has seven bytes. *)
Lemma len_prefixed (label : bytes) :
  len (list_byte_of_string tag.LabelPrefix ++ label) = 7 + len label.
Proof. rewrite len_app. reflexivity. Qed.

Lemma buildLabel_defined (length : Z) (label context : bytes) :
  label_bounds length label context ->
  buildLabel length label context
  = Some (encoding.be_bytes 2 length
          ++ (byte_of_Z (7 + len label) :: list_byte_of_string tag.LabelPrefix ++ label)
          ++ (byte_of_Z (len context) :: context)).
Proof.
  intros (Hl & Hlab & Hctx). unfold buildLabel.
  pose proof (len_nonneg label). pose proof (len_nonneg context).
  rewrite I2OSP_Some by (change (256 ^ Z.of_nat 2) with 65536; lia).
  rewrite !EncodeVectorLen_Some
    by (change (256 ^ Z.of_nat 1) with 256; rewrite ?len_prefixed; lia).
  cbn [obind]. rewrite !be_bytes_1, len_prefixed, !Z.mod_small by lia.
  reflexivity.
Qed.

Lemma buildLabel_undefined (length : Z) (label context : bytes) :
  ~ label_bounds length label context -> buildLabel length label context = None.
Proof.
  intros H. unfold buildLabel, encoding.EncodeVectorLen.
  pose proof (len_nonneg label). pose proof (len_nonneg context).
  destruct (Z_lt_dec length 0) as [?|?];
    [rewrite I2OSP_None by (change (256 ^ Z.of_nat 2) with 65536; lia); reflexivity|].
  destruct (Z_lt_dec length 65536) as [?|?];
    [|rewrite I2OSP_None by (change (256 ^ Z.of_nat 2) with 65536; lia); reflexivity].
  rewrite I2OSP_Some by (change (256 ^ Z.of_nat 2) with 65536; lia). cbn [obind].
  destruct (Z_le_dec (len label) 248) as [?|?].
  - rewrite (I2OSP_Some (len (list_byte_of_string tag.LabelPrefix ++ label)))
      by (change (256 ^ Z.of_nat 1) with 256; rewrite len_prefixed; lia).
    cbn [obind].
    rewrite I2OSP_None; [reflexivity|].
    change (256 ^ Z.of_nat 1) with 256. unfold label_bounds in H. lia.
  - rewrite I2OSP_None; [reflexivity|].
    change (256 ^ Z.of_nat 1) with 256. rewrite len_prefixed. lia.
Qed.

Lemma label_bounds_dec (length : Z) (label context : bytes) :
  {label_bounds length label context} + {~ label_bounds length label context}.
Proof.
  unfold label_bounds.
  destruct (Z_le_dec 0 length); [|right; lia].
  destruct (Z_lt_dec length 65536); [|right; lia].
  destruct (Z_le_dec (len label) 248); [|right; lia].
  destruct (Z_le_dec (len context) 255); [|right; lia].
  left; lia.
Qed.

Lemma buildLabel_Some_bounds (length : Z) (label context x : bytes) :
  buildLabel length label context = Some x -> label_bounds length label context.
Proof.
  intros H. destruct (label_bounds_dec length label context) as [B|B]; [exact B|].
  rewrite buildLabel_undefined in H by exact B. discriminate.
Qed.

Lemma len_cons {A} (x : A) (l : list A) : len (x :: l) = 1 + len l.
Proof. unfold len; cbn [List.length]. lia. Qed.

Lemma cons_eq_inv {A} (x y : A) (a b : list A) : x :: a = y :: b -> x = y /\ a = b.
Proof. intros H. injection H as -> ->. auto. Qed.

Lemma Some_eq_inv {A} (x y : A) : Some x = Some y -> x = y.
Proof. intros H. now injection H. Qed.

Lemma buildLabel_inj (l1 l2 : Z) (lab1 lab2 ctx1 ctx2 x : bytes) :
  buildLabel l1 lab1 ctx1 = Some x ->
  buildLabel l2 lab2 ctx2 = Some x ->
  l1 = l2 /\ lab1 = lab2 /\ ctx1 = ctx2.
Proof.
  intros H1 H2.
  pose proof (buildLabel_Some_bounds _ _ _ _ H1) as B1.
  pose proof (buildLabel_Some_bounds _ _ _ _ H2) as B2.
  rewrite (buildLabel_defined _ _ _ B1) in H1.
  rewrite (buildLabel_defined _ _ _ B2) in H2.
  rewrite <- H2 in H1. apply Some_eq_inv in H1. rename H1 into H.
  destruct B1 as (Hl1 & Hb1 & Hc1), B2 as (Hl2 & Hb2 & Hc2).
  pose proof (len_nonneg lab1). pose proof (len_nonneg lab2).
  apply app_inj_length in H; [|reflexivity].
  destruct H as [Hsize H].
  apply be_bytes_2_inj in Hsize; [|lia ..].
  rewrite <- !app_comm_cons in H. apply cons_eq_inv in H. destruct H as [Hn H].
  apply byte_of_Z_inj in Hn; [|lia ..].
  apply app_inj_length in H.
  - destruct H as [Hlab Hctx].
    apply app_inv_head in Hlab. apply cons_eq_inv in Hctx. destruct Hctx as [_ Hctx].
    auto.
  - rewrite !length_app. unfold len in Hn. lia.
Qed.

(** X5.  The labels of the key schedule are unambiguous: two calls of
    [buildLabel] that return the same bytes were given the same length, the
    same label and the same context. *)
Theorem buildLabel_unambiguous (l1 l2 : Z) (lab1 lab2 ctx1 ctx2 x : bytes) :
  buildLabel l1 lab1 ctx1 = Some x ->
  buildLabel l2 lab2 ctx2 = Some x ->
  l1 = l2 /\ lab1 = lab2 /\ ctx1 = ctx2.
Proof. apply buildLabel_inj. Qed.

(** X6.  [buildLabel] returns exactly when the length fits in two bytes,
    the label has at most 248 bytes (255 with the prefix) and the context
    at most 255; what it returns is 11 bytes longer than the label and the
    context together. *)
Theorem buildLabel_bounds (length : Z) (label context : bytes) :
  (buildLabel length label context <> None <-> label_bounds length label context)
  /\ (forall x : bytes,
         buildLabel length label context = Some x ->
         len x = 11 + len label + len context).
Proof.
  split.
  - split.
    + intros H. destruct (label_bounds_dec length label context) as [B|B]; [exact B|].
      now rewrite buildLabel_undefined in H.
    + intros B. now rewrite buildLabel_defined.
  - intros x H. pose proof (buildLabel_Some_bounds _ _ _ _ H) as B.
    rewrite (buildLabel_defined _ _ _ B) in H. apply Some_eq_inv in H. subst x.
    rewrite !len_app. change (len (encoding.be_bytes 2 length)) with 2.
    rewrite !len_cons, len_prefixed. lia.
Qed.

(** X7.  The four expansions of [deriveKeys] are made under four different
    labels, whatever the size and the contexts: handshake secret, session
    secret, server MAC key and client MAC key never share an HKDF info. *)
Theorem deriveKeys_labels_distinct (size : Z) (c1 c2 c3 c4 l1 l2 l3 l4 : bytes) :
  buildLabel size (list_byte_of_string tag.Handshake) c1 = Some l1 ->
  buildLabel size (list_byte_of_string tag.Session) c2 = Some l2 ->
  buildLabel size (list_byte_of_string tag.MacServer) c3 = Some l3 ->
  buildLabel size (list_byte_of_string tag.MacClient) c4 = Some l4 ->
  NoDup [l1; l2; l3; l4].
Proof.
  intros H1 H2 H3 H4.
  assert (D : forall (a b : string) (ca cb la lb : bytes),
             list_byte_of_string a <> list_byte_of_string b ->
             buildLabel size (list_byte_of_string a) ca = Some la ->
             buildLabel size (list_byte_of_string b) cb = Some lb ->
             la <> lb).
  { intros a b ca cb la lb Hab Ha Hb Heq. subst lb.
    destruct (buildLabel_inj _ _ _ _ _ _ _ Ha Hb) as (_ & Hl & _). contradiction. }
  repeat constructor; cbn; intros H;
    repeat (destruct H as [H|H]; [revert H; eapply D; [|eassumption|eassumption];
                                  vm_compute; discriminate|]);
    try contradiction.
Qed.

End Labels.

Lemma buildLabel_unambiguous_witness :
  64 = 64 /\ [x01] = [x01] /\ [x02; x03] = [x02; x03].
Proof.
  apply (buildLabel_unambiguous 64 64 [x01] [x01] [x02; x03] [x02; x03]
           [x00; x40; x08; x4f; x50; x41; x51; x55; x45; x20; x01; x02; x02; x03]);
    reflexivity.
Defined.

Lemma deriveKeys_labels_distinct_witness :
  exists l1 l2 l3 l4 : bytes,
    internal_ake.buildLabel 64 (list_byte_of_string tag.Handshake) [x02] = Some l1
    /\ internal_ake.buildLabel 64 (list_byte_of_string tag.MacClient) [] = Some l4
    /\ NoDup [l1; l2; l3; l4].
Proof.
  do 4 eexists. split; [reflexivity|]. split; [reflexivity|].
  apply (deriveKeys_labels_distinct 64 [x02] [x02] [] []); reflexivity.
Defined.

(** ** Errors of the 3DH core *)

Section IkmMore.
Context {G : group.Group}.
Import internal_ake.

Lemma ikm_decoded (s : selector) (esk sk : group.Scalar) (peerEpk peerPk : bytes)
    (P Q : group.Element) :
  group.DecodeElement peerEpk = Ok P ->
  group.DecodeElement peerPk = Ok Q ->
  ikm s esk sk peerEpk peerPk
  = Ok (if Bool.eqb s client then k3dh P esk Q esk P sk else k3dh P esk P sk Q esk).
Proof.
  intros HP HQ. unfold ikm, decodeKeys. rewrite HP, HQ.
  now destruct (Bool.eqb s client).
Qed.

Lemma ikm_Err_inv (s : selector) (esk sk : group.Scalar) (peerEpk peerPk : bytes)
    (e : error) :
  ikm s esk sk peerEpk peerPk = Err e ->
  (exists e0, group.DecodeElement peerEpk = Err e0
              /\ e = ErrWrap "decoding peer ephemeral public key" e0)
  \/ (exists P e0, group.DecodeElement peerEpk = Ok P
                   /\ group.DecodeElement peerPk = Err e0
                   /\ e = ErrWrap "decoding peer public key" e0).
Proof.
  unfold ikm, decodeKeys.
  destruct (group.DecodeElement peerEpk) as [P|e0] eqn:EP.
  - destruct (group.DecodeElement peerPk) as [Q|e1] eqn:EQ.
    + destruct (Bool.eqb s client); discriminate.
    + intros H. injection H as <-. right. eauto.
  - intros H. injection H as <-. left. eauto.
Qed.

(** X8.  [ikm] fails exactly when one of the two peer keys does not decode,
    for the client and for the server alike and whatever the scalars: with
    the error of the ephemeral key when that one does not decode, and with
    the error of the long-term key only when the ephemeral key decodes. *)
Theorem ikm_errors (s : selector) (esk sk : group.Scalar) (peerEpk peerPk : bytes) :
  (forall e : error,
      group.DecodeElement peerEpk = Err e ->
      ikm s esk sk peerEpk peerPk
      = Err (ErrWrap "decoding peer ephemeral public key" e))
  /\ (forall (P : group.Element) (e : error),
         group.DecodeElement peerEpk = Ok P ->
         group.DecodeElement peerPk = Err e ->
         ikm s esk sk peerEpk peerPk = Err (ErrWrap "decoding peer public key" e))
  /\ ((exists k : bytes, ikm s esk sk peerEpk peerPk = Ok k)
      <-> (exists P Q : group.Element,
              group.DecodeElement peerEpk = Ok P /\ group.DecodeElement peerPk = Ok Q)).
Proof.
  split; [|split].
  - intros e He. unfold ikm, decodeKeys. now rewrite He.
  - intros P e HP He. unfold ikm, decodeKeys. now rewrite HP, He.
  - split.
    + intros [k Hk]. unfold ikm, decodeKeys in Hk.
      destruct (group.DecodeElement peerEpk) as [P|]; [|discriminate].
      destruct (group.DecodeElement peerPk) as [Q|]; [|discriminate].
      eauto.
    + intros (P & Q & HP & HQ). rewrite (ikm_decoded s esk sk _ _ P Q HP HQ). eauto.
Qed.

End IkmMore.

(** ** The transcript and the 3DH core *)

Section CoreMore.
Context {prim : Primitives} {rh : RunningHash}.
Import internal_ake.

Lemma k3dh_agree {G : group.Group} {L : group.GroupLaws G}
    (esk_c esk_s sk_c sk_s : group.Scalar) :
  k3dh (group.Mult group.Base esk_s) esk_c
       (group.Mult group.Base sk_s) esk_c
       (group.Mult group.Base esk_s) sk_c
  = k3dh (group.Mult group.Base esk_c) esk_s
         (group.Mult group.Base esk_c) sk_s
         (group.Mult group.Base sk_c) esk_s.
Proof.
  unfold k3dh; cbn zeta.
  rewrite (group.Mult_comm group.Base esk_s esk_c).
  rewrite (group.Mult_comm group.Base sk_s esk_c).
  rewrite (group.Mult_comm group.Base esk_s sk_c).
  reflexivity.
Qed.

(** X9.  Both sides of the key exchange compute the same MACs and the same
    session secret: with epk_c = base x esk_c, epk_s = base x esk_s, pk_c =
    base x sk_c and pk_s = base x sk_s (whose encodings decode to them),
    the same identities, KE1 and KE2 (up to the MAC field of KE2, which the
    server has not filled in yet) and the same state of the hash, [core3DH]
    returns the same for the client and for the server. *)
Theorem core3DH_client_server_agree (p : internal.Parameters)
    (L : group.GroupLaws (group_of (internal.pGroup p)))
    (esk_c esk_s sk_c sk_s : @group.Scalar (group_of (internal.pGroup p)))
    (idu ids : bytes) (ke1 : message.KE1) (response : cred.CredentialResponse)
    (nonceS epkS mac_c mac_s : bytes) (hs : HashState) :
  let epk_c := group.Mult group.Base esk_c in
  let epk_s := group.Mult group.Base esk_s in
  let pk_c := group.Mult group.Base sk_c in
  let pk_s := group.Mult group.Base sk_s in
  group.DecodeElement (group.Bytes epk_c) = Ok epk_c ->
  group.DecodeElement (group.Bytes epk_s) = Ok epk_s ->
  group.DecodeElement (group.Bytes pk_c) = Ok pk_c ->
  group.DecodeElement (group.Bytes pk_s) = Ok pk_s ->
  core3DH client p (mkCoreKeys _ esk_c sk_c (group.Bytes epk_s) (group.Bytes pk_s))
    idu ids ke1 (message.mkKE2 response nonceS epkS mac_c) hs
  = core3DH server p (mkCoreKeys _ esk_s sk_s (group.Bytes epk_c) (group.Bytes pk_c))
      idu ids ke1 (message.mkKE2 response nonceS epkS mac_s) hs.
Proof.
  intros epk_c epk_s pk_c pk_s Hec Hes Hpc Hps.
  unfold core3DH; cbn [esk secretKey peerEpk peerPublicKey].
  rewrite (ikm_decoded client esk_c sk_c _ _ epk_s pk_s Hes Hps).
  rewrite (ikm_decoded server esk_s sk_s _ _ epk_c pk_c Hec Hpc).
  cbn [Bool.eqb client server].
  unfold epk_c, epk_s, pk_c, pk_s. rewrite k3dh_agree.
  reflexivity.
Qed.

(** X10.  [core3DH] leaves no partial state on an error: the only errors
    are those of decoding the peer's keys, and they are returned before
    anything is written to the hash of the parameters. *)
Theorem core3DH_error (s : selector) (p : internal.Parameters)
    (k : coreKeys (group_of (internal.pGroup p))) (idu ids : bytes)
    (ke1 : message.KE1) (ke2 : message.KE2) (hs hs' : HashState) (e : error) :
  core3DH s p k idu ids ke1 ke2 hs = Some (Err e, hs') ->
  let G := group_of (internal.pGroup p) in
  hs' = hs
  /\ ((exists e0, group.DecodeElement (Group := G) (peerEpk k) = Err e0
                  /\ e = ErrWrap "decoding peer ephemeral public key" e0)
      \/ (exists P e0, group.DecodeElement (Group := G) (peerEpk k) = Ok P
                       /\ group.DecodeElement (Group := G) (peerPublicKey k) = Err e0
                       /\ e = ErrWrap "decoding peer public key" e0)).
Proof.
  intros H G. unfold core3DH in H.
  destruct (ikm s (esk k) (secretKey k) (peerEpk k) (peerPublicKey k)) as [i|e1] eqn:Ei.
  - destruct (initTranscript p idu ids ke1 ke2 hs) as [hs1|]; cbn [obind] in H;
      [|discriminate].
    destruct (Hash_Sum _ hs1) as [preamble hs2].
    destruct (deriveKeys (internal.pKDF p) i preamble) as [[keys ss]|]; cbn [obind] in H;
      [|discriminate].
    destruct (Hash_Sum _ hs2) as [t2 hs3].
    destruct (Hash_Sum _ _) as [t3 hs5]. discriminate.
  - injection H as <- <-. split; [reflexivity|].
    now apply ikm_Err_inv in Ei.
Qed.

(** X11.  The transcript that [initTranscript] writes covers the whole of
    KE2 but its MAC: followed by the MAC of KE2, it is the version tag, the
    length-prefixed context and client identity, the encoding of KE1, the
    length-prefixed server identity and the encoding of KE2.  It is defined
    when the context and the two identities are shorter than 65536 bytes. *)
Theorem transcript_covers_KE2 (p : internal.Parameters) (idc ids : bytes)
    (ke1 : message.KE1) (ke2 : message.KE2) :
  len (internal.pContext p) < 65536 -> len idc < 65536 -> len ids < 65536 ->
  exists t : bytes,
    transcript p idc ids ke1 ke2 = Some t
    /\ t ++ message.KE2_Mac ke2
       = list_byte_of_string "RFCXXXX"
         ++ (encoding.be_bytes 2 (len (internal.pContext p)) ++ internal.pContext p)
         ++ (encoding.be_bytes 2 (len idc) ++ idc)
         ++ message.KE1_Serialize ke1
         ++ (encoding.be_bytes 2 (len ids) ++ ids)
         ++ message.KE2_Serialize ke2.
Proof.
  intros Hc Hi Hs. unfold transcript, encoding.EncodeVector.
  rewrite !EncodeVectorLen_Some by (change (256 ^ Z.of_nat 2) with 65536; lia).
  cbn [obind]. eexists; split; [reflexivity|].
  unfold encoding.Concatenate, message.KE2_Serialize, encoding.Concat, encoding.Concat3.
  cbn [List.concat]. unfold tag.VersionTag.
  rewrite app_nil_r. now rewrite <- !app_assoc.
Qed.

End CoreMore.

Lemma ikm_errors_witness :
  internal_ake.ikm (G := Toy.toy_group) internal_ake.server 5 11 [xff] [x07]
  = Err (ErrWrap "decoding peer ephemeral public key" ErrDecodeElement).
Proof.
  apply (proj1 (ikm_errors (G := Toy.toy_group) internal_ake.server 5 11 [xff] [x07])).
  reflexivity.
Defined.

(** ** The hooks and the random source *)

Section HooksMore.
Context {G : group.Group}.

(** X12.  [setValues] never fails; a scalar that is given is returned, and
    a nonce that is given and not empty is returned, without a read of the
    random source when both are; a scalar that is not given is drawn from
    the random source first; an empty nonce, nil or not, is replaced by the
    next nonceLen bytes of the random source, read after the scalar. *)
Theorem setValues_behaviour (scalar : option group.Scalar) (nonce : bytes)
    (nonceLen : Z) (r : Rng) :
  exists (s : group.Scalar) (n : bytes) (r' : Rng),
    internal_ake.setValues scalar nonce nonceLen r = (Ok (s, n), r')
    /\ (forall sc, scalar = Some sc -> s = sc)
    /\ (nonce <> [] -> n = nonce)
    /\ (forall sc, scalar = Some sc -> nonce <> [] -> r' = r)
    /\ (nonce = [] -> 0 <= nonceLen -> len n = nonceLen)
    /\ (forall sc, scalar = Some sc -> nonce = [] ->
                   (n, r') = rng_read (Z.to_nat nonceLen) r)
    /\ (scalar = None ->
        s = fst (group.RandomScalar r)
        /\ (nonce <> [] -> r' = snd (group.RandomScalar r))
        /\ (nonce = [] ->
            (n, r') = rng_read (Z.to_nat nonceLen) (snd (group.RandomScalar r)))).
Proof.
  unfold internal_ake.setValues, bind, ret, random.
  destruct scalar as [sc|].
  - destruct nonce as [|b nonce].
    + cbn. do 3 eexists. split; [reflexivity|].
      repeat split; try congruence.
      * intros _ Hl. unfold len. rewrite length_map, length_seq. lia.
    + assert (Hl : (len (b :: nonce) =? 0) = false).
      { apply Z.eqb_neq. rewrite len_cons. pose proof (len_nonneg nonce). lia. }
      rewrite Hl. do 3 eexists. split; [reflexivity|].
      repeat split; try congruence; discriminate.
  - destruct (group.RandomScalar r) as [s0 r0] eqn:Er.
    destruct nonce as [|b nonce].
    + cbn. do 3 eexists. split; [reflexivity|].
      repeat split; try congruence; try discriminate.
      intros _ Hl. unfold len. rewrite length_map, length_seq. lia.
    + assert (Hl : (len (b :: nonce) =? 0) = false).
      { apply Z.eqb_neq. rewrite len_cons. pose proof (len_nonneg nonce). lia. }
      rewrite Hl. do 3 eexists. split; [reflexivity|].
      repeat split; try congruence; discriminate.
Qed.

(** X13.  [Ake.Initialize] never fails and always leaves the ephemeral key
    pair set and matching (Epk = base x Esk); a scalar that was set is
    kept, a scalar that is given is taken when none was set, and the other
    fields are untouched.  Once called, any further call, with any
    arguments, leaves the same state. *)
Theorem Initialize_state (a : ake.Ake) (scalar : option group.Scalar)
    (nonce : option bytes) (nonceLen : Z) (r : Rng) :
  exists (n : bytes) (e : group.Scalar) (r' : Rng),
    let a' := ake.mkAke (ake.Ake_Hashing a) (ake.SessionSecret a) (Some e)
                (Some (group.Mult group.Base e)) (ake.Ake_Keys a) in
    ake.Initialize a scalar nonce nonceLen r = (Ok (n, a'), r')
    /\ (forall e0, ake.Esk a = Some e0 -> e = e0)
    /\ (forall sc, ake.Esk a = None -> scalar = Some sc -> e = sc)
    /\ (forall scalar2 nonce2 nonceLen2 r2,
           exists n2 r2',
             ake.Initialize a' scalar2 nonce2 nonceLen2 r2 = (Ok (n2, a'), r2')).
Proof.
  assert (Hidem : forall e scalar2 nonce2 nonceLen2 r2,
             let a' := ake.mkAke (ake.Ake_Hashing a) (ake.SessionSecret a) (Some e)
                         (Some (group.Mult group.Base e)) (ake.Ake_Keys a) in
             exists n2 r2',
               ake.Initialize a' scalar2 nonce2 nonceLen2 r2 = (Ok (n2, a'), r2')).
  { intros e scalar2 nonce2 nonceLen2 r2 a'.
    unfold ake.Initialize, bind, ret; cbn.
    destruct nonce2 as [n2|]; cbn; eauto. }
  unfold ake.Initialize, bind, ret, random.
  destruct (ake.Esk a) as [e0|] eqn:Ea.
  - destruct nonce as [n|]; cbn; do 3 eexists; (split; [reflexivity|]);
      repeat split; try congruence; apply Hidem.
  - destruct scalar as [sc|].
    + destruct nonce as [n|]; cbn; do 3 eexists; (split; [reflexivity|]);
        repeat split; try congruence; apply Hidem.
    + destruct (group.RandomScalar r) as [s0 r0] eqn:Er.
      destruct nonce as [n|]; cbn; do 3 eexists; (split; [reflexivity|]);
        repeat split; try congruence; apply Hidem.
Qed.

(** X14.  The nonce of [Ake.Initialize]: a nonce that is not nil is
    returned as it is, the empty one included, and only a nil nonce is
    replaced by random bytes: the next nonceLen bytes of the random source,
    read after the scalar has been drawn (when no scalar is set or given);
    when the scalar is set or given, a call with a nonce reads nothing from
    the random source. *)
Theorem Initialize_nonce (a : ake.Ake) (scalar : option group.Scalar)
    (nonceLen : Z) (r : Rng) :
  (forall n : bytes,
      exists a', fst (ake.Initialize a scalar (Some n) nonceLen r) = Ok (n, a'))
  /\ (forall n : bytes,
         ake.Esk a <> None \/ scalar <> None ->
         snd (ake.Initialize a scalar (Some n) nonceLen r) = r)
  /\ (0 <= nonceLen ->
      exists n a', fst (ake.Initialize a scalar None nonceLen r) = Ok (n, a')
                   /\ len n = nonceLen)
  /\ (let r0 := match ake.Esk a, scalar with
                 | None, None => snd (group.RandomScalar r)
                 | _, _ => r
                 end in
      exists a',
        ake.Initialize a scalar None nonceLen r
        = (Ok (fst (rng_read (Z.to_nat nonceLen) r0), a'),
           snd (rng_read (Z.to_nat nonceLen) r0))
        /\ forall n : bytes,
             ake.Initialize a scalar (Some n) nonceLen r = (Ok (n, a'), r0)).
Proof.
  unfold ake.Initialize, bind, ret, random.
  split; [|split; [|split]].
  - intros n.
    destruct (ake.Esk a) as [e0|]; [cbn; eauto|].
    destruct scalar as [sc|]; [cbn; eauto|].
    destruct (group.RandomScalar r) as [s0 r0]; cbn; eauto.
  - intros n [H|H].
    + destruct (ake.Esk a) as [e0|]; [reflexivity|congruence].
    + destruct (ake.Esk a) as [e0|]; [reflexivity|].
      destruct scalar as [sc|]; [reflexivity|congruence].
  - intros Hl.
    assert (Hlen : forall r0, len (map (rng_tape r0) (seq (rng_pos r0) (Z.to_nat nonceLen)))
                              = nonceLen).
    { intros r0. unfold len. rewrite length_map, length_seq. lia. }
    destruct (ake.Esk a) as [e0|]; [cbn; eauto|].
    destruct scalar as [sc|]; [cbn; eauto|].
    destruct (group.RandomScalar r) as [s0 r0]; cbn; eauto.
  - destruct (ake.Esk a) as [e0|]; [destruct scalar; cbn; eauto|].
    destruct scalar as [sc|]; [cbn; eauto|].
    destruct (group.RandomScalar r) as [s0 r0]; cbn; eauto.
Qed.

End HooksMore.

(** ** The server *)

Section ServerMore.
Context {prim : Primitives} {rh : RunningHash}.
Import opaque.

Variable Response :
  forall p : internal.Parameters,
    internal_ake.Server -> bytes -> @group.Scalar (group_of (internal.pGroup p)) ->
    bytes -> bytes -> message.KE1 -> cred.CredentialResponse ->
    HashState -> Rng ->
    result message.KE2 * internal_ake.Server * HashState * Rng.
Variable SetState :
  internal_ake.Server -> bytes -> bytes -> option error * internal_ake.Server.

(** X15.  The random source in [credentialResponse]: nothing is read when
    the OPRF evaluation fails, nor when a masking nonce is given; otherwise
    the masking nonce is the next NonceLen bytes of the source.  The
    evaluation error comes back under "oprfResponse", whatever the record
    and the nonce. *)
Theorem credentialResponse_random (s : Server) (req : cred.CredentialRequest)
    (pk : bytes) (record : message.RegistrationUpload)
    (credentialIdentifier oprfSeed maskingNonce : bytes) (r : Rng) :
  (forall e : error,
      oprfResponse s oprfSeed credentialIdentifier (cred.Data req) = Err e ->
      credentialResponse s req pk record credentialIdentifier oprfSeed maskingNonce r
      = (Err (ErrWrap "oprfResponse" e), r))
  /\ (forall z : bytes,
         oprfResponse s oprfSeed credentialIdentifier (cred.Data req) = Ok z ->
         exists resp : cred.CredentialResponse,
           (maskingNonce <> [] ->
            credentialResponse s req pk record credentialIdentifier oprfSeed
              maskingNonce r = (Ok resp, r)
            /\ cred.MaskingNonce resp = maskingNonce)
           /\ (maskingNonce = [] ->
               let n := Z.to_nat (internal.pNonceLen (Parameters s)) in
               credentialResponse s req pk record credentialIdentifier oprfSeed
                 maskingNonce r = (Ok resp, snd (rng_read n r))
               /\ cred.MaskingNonce resp = fst (rng_read n r)
               /\ List.length (cred.MaskingNonce resp) = n)).
Proof.
  unfold credentialResponse, bind, lift, ret. split.
  - intros e He. now rewrite He.
  - intros z Hz. rewrite Hz; cbn [wrap_err].
    destruct maskingNonce as [|b m].
    + cbn. eexists. split; [congruence|]. intros _.
      split; [reflexivity|]. split; [reflexivity|].
      cbn. now rewrite length_map, length_seq.
    + assert (Hl : (len (b :: m) =? 0) = false).
      { apply Z.eqb_neq. rewrite len_cons. pose proof (len_nonneg m). lia. }
      rewrite Hl. eexists. split; [|discriminate]. intros _.
      split; reflexivity.
Qed.

(** X16.  Only [Init] checks the server's public key.  For a public key
    that does not decode, [RegistrationResponse] still answers (when the
    OPRF evaluation succeeds) and returns that key as [Pks], while [Init]
    fails with "invalid server public key" and changes nothing. *)
Theorem server_public_key_checked_by_Init_only (s : Server) (e : error)
    (serverPublicKey : bytes) :
  group.DecodeElement (Group := group_of (internal.pGroup (Parameters s))) serverPublicKey
  = Err e ->
  (forall (req : message.RegistrationRequest) (credentialIdentifier oprfSeed z : bytes),
      oprfResponse s oprfSeed credentialIdentifier (message.reqData req) = Ok z ->
      RegistrationResponse s req serverPublicKey credentialIdentifier oprfSeed
      = Ok (message.mkRegistrationResponse
              (internal.PadPoint z (internal.pGroup (Parameters s))) serverPublicKey))
  /\ (forall ke1 serverIdentity serverSecretKey oprfSeed record hs r,
         Init Response s ke1 serverIdentity serverSecretKey serverPublicKey oprfSeed
           record hs r
         = (Err (ErrWrap "invalid server public key" e), s, hs, r)).
Proof.
  intros Hpk. split.
  - intros req cid seed z Hz. unfold RegistrationResponse. now rewrite Hz.
  - intros. unfold Init. now rewrite Hpk.
Qed.

(** X17.  The failures of [Init] before the AKE, in their order: a secret
    key that does not decode gives "invalid server secret key" (once the
    public key has decoded), and a blinded element that the OPRF cannot
    evaluate gives the evaluation error under " credentialResponse" and
    "oprfResponse" (once both keys have decoded).  In both cases the AKE is
    not reached, no random byte is read, and the server and the hash are as
    before. *)
Theorem Init_fails_before_AKE (s : Server) (ke1 : message.KE1)
    (serverIdentity : option bytes) (serverSecretKey serverPublicKey oprfSeed : bytes)
    (record : ClientRecord) (hs : HashState) (r : Rng)
    (P : @group.Element (group_of (internal.pGroup (Parameters s)))) :
  group.DecodeElement serverPublicKey = Ok P ->
  (forall e : error,
      group.DecodeScalar (Group := group_of (internal.pGroup (Parameters s)))
        serverSecretKey = Err e ->
      Init Response s ke1 serverIdentity serverSecretKey serverPublicKey oprfSeed
        record hs r
      = (Err (ErrWrap "invalid server secret key" e), s, hs, r))
  /\ (forall (sks : @group.Scalar (group_of (internal.pGroup (Parameters s))))
             (e : error),
         group.DecodeScalar serverSecretKey = Ok sks ->
         oprfResponse s oprfSeed (CredentialIdentifier record)
           (cred.Data (message.KE1_CredentialRequest ke1)) = Err e ->
         Init Response s ke1 serverIdentity serverSecretKey serverPublicKey oprfSeed
           record hs r
         = (Err (ErrWrap " credentialResponse" (ErrWrap "oprfResponse" e)), s, hs, r)).
Proof.
  intros Hpk. split.
  - intros e Hsk. unfold Init. now rewrite Hpk, Hsk.
  - intros sks e Hsk He. unfold Init. rewrite Hpk, Hsk.
    unfold credentialResponse, bind, lift. now rewrite He.
Qed.

(** The identities default to the public keys: [Init] with a nil
    server identity does what it does with the server's public key as
    identity, and a record with a nil client identity is treated as the
    record with the client's public key as identity. *)
Theorem Init_identity_defaults (s : Server) (ke1 : message.KE1)
    (serverIdentity : option bytes) (serverSecretKey serverPublicKey oprfSeed : bytes)
    (cid : bytes) (clientIdentity : option bytes) (upload : message.RegistrationUpload)
    (testNonce : bytes) (hs : HashState) (r : Rng) :
  Init Response s ke1 None serverSecretKey serverPublicKey oprfSeed
    (mkClientRecord cid clientIdentity upload testNonce) hs r
  = Init Response s ke1 (Some serverPublicKey) serverSecretKey serverPublicKey oprfSeed
      (mkClientRecord cid clientIdentity upload testNonce) hs r
  /\ Init Response s ke1 serverIdentity serverSecretKey serverPublicKey oprfSeed
       (mkClientRecord cid None upload testNonce) hs r
     = Init Response s ke1 serverIdentity serverSecretKey serverPublicKey oprfSeed
         (mkClientRecord cid (Some (message.PublicKey upload)) upload testNonce) hs r.
Proof. split; reflexivity. Qed.

(** X18.  What a result of [Init] says about its inputs: a KE2 is returned
    only for keys that decode and a blinded element that evaluates; and
    every error other than one of the AKE (under " AKE response") leaves
    the server and the hash of its parameters as they were. *)
Theorem Init_inversion (s s' : Server) (ke1 : message.KE1)
    (serverIdentity : option bytes) (serverSecretKey serverPublicKey oprfSeed : bytes)
    (record : ClientRecord) (hs hs' : HashState) (r r' : Rng)
    (res : result message.KE2) :
  Init Response s ke1 serverIdentity serverSecretKey serverPublicKey oprfSeed record hs r
  = (res, s', hs', r') ->
  let G := group_of (internal.pGroup (Parameters s)) in
  match res with
  | Ok ke2 =>
      (exists P, group.DecodeElement (Group := G) serverPublicKey = Ok P)
      /\ (exists sks, group.DecodeScalar (Group := G) serverSecretKey = Ok sks)
      /\ (exists z, oprfResponse s oprfSeed (CredentialIdentifier record)
                      (cred.Data (message.KE1_CredentialRequest ke1)) = Ok z)
      /\ Parameters s' = Parameters s
  | Err e =>
      (exists e0, e = ErrWrap " AKE response" e0) \/ (s' = s /\ hs' = hs)
  end.
Proof.
  intros H G. unfold Init in H.
  destruct (group.DecodeElement serverPublicKey) as [P|e0] eqn:Epk.
  2:{ injection H as <- <- <- <-. right; auto. }
  destruct (group.DecodeScalar serverSecretKey) as [sks|e0] eqn:Esk.
  2:{ injection H as <- <- <- <-. right; auto. }
  destruct (credentialResponse _ _ _ _ _ _ _ r) as [[resp|e0] r1] eqn:Ecr.
  2:{ injection H as <- <- <- <-. right; auto. }
  assert (Hz : exists z, oprfResponse s oprfSeed (CredentialIdentifier record)
                           (cred.Data (message.KE1_CredentialRequest ke1)) = Ok z).
  { unfold credentialResponse, bind, lift in Ecr.
    destruct (oprfResponse _ _ _ _) as [z|e0]; [eauto|discriminate]. }
  destruct (Response _ _ _ _ _ _ _ _ _ _) as [[[[ke2|e0] a] hs2] r2].
  - injection H as <- <- <- <-. cbn. eauto 10.
  - injection H as <- <- <- <-. left; eauto.
Qed.

(** X19.  [SetAKEState] refuses every state whose length is not MAC size +
    KDF size, with the invalid-state error and the server as it was.  A
    state of the right length is split at the MAC size: the AKE state is set
    from an expected MAC of exactly MAC-size bytes and a session key of
    exactly KDF-size bytes that together are the given state, and the error
    of that step is the error returned. *)
Theorem SetAKEState_lengths (s : Server) (state : bytes) :
  0 <= internal.Mac_Size (internal.pMAC (Parameters s)) ->
  0 <= internal.KDF_Size (internal.pKDF (Parameters s)) ->
  internal.Mac_Size (internal.pMAC (Parameters s))
  + internal.KDF_Size (internal.pKDF (Parameters s)) <= int_max ->
  (len state <> internal.Mac_Size (internal.pMAC (Parameters s))
                + internal.KDF_Size (internal.pKDF (Parameters s)) ->
   SetAKEState SetState s state = Some (Some ErrInvalidState, s))
  /\ (len state = internal.Mac_Size (internal.pMAC (Parameters s))
                  + internal.KDF_Size (internal.pKDF (Parameters s)) ->
      exists mac key : bytes,
        mac ++ key = state
        /\ len mac = internal.Mac_Size (internal.pMAC (Parameters s))
        /\ len key = internal.KDF_Size (internal.pKDF (Parameters s))
        /\ SetAKEState SetState s state
           = Some (fst (SetState (Ake s) mac key),
                   mkServer (Parameters s) (snd (SetState (Ake s) mac key)))).
Proof.
  intros Hm Hk Hmax. unfold SetAKEState.
  set (n := internal.Mac_Size (internal.pMAC (Parameters s))) in *.
  set (k := internal.KDF_Size (internal.pKDF (Parameters s))) in *.
  assert (Hadd : int_add n k = n + k).
  { unfold int_add. apply int_wrap_small. unfold in_int_range.
    change int_min with (- 9223372036854775808). lia. }
  rewrite Hadd. split.
  - intros Hne. apply Z.eqb_neq in Hne. now rewrite Hne.
  - intros Hl.
    exists (firstn (Z.to_nat n) state), (skipn (Z.to_nat n) state).
    rewrite (proj2 (Z.eqb_eq _ _) Hl); cbn [negb].
    destruct (Z.ltb_spec n 0); [lia|].
    destruct (Z.ltb_spec (len state) n); [lia|]. cbn [orb].
    split; [apply firstn_skipn|].
    unfold len in *. split; [|split].
    + rewrite length_firstn. lia.
    + rewrite length_skipn. lia.
    + now destruct (SetState _ _ _).
Qed.

End ServerMore.

(** ** The encodings of KE1 and KE2 *)

(** X20.  The encoding of KE1 is unambiguous once the lengths of the
    blinded element and of the nonce are fixed: two KE1 with fields of
    these lengths and the same encoding are the same message. *)
Theorem KE1_Serialize_inj (m m' : message.KE1) :
  len (cred.Data (message.KE1_CredentialRequest m))
  = len (cred.Data (message.KE1_CredentialRequest m')) ->
  len (message.NonceU m) = len (message.NonceU m') ->
  message.KE1_Serialize m = message.KE1_Serialize m' ->
  m = m'.
Proof.
  destruct m as [[d] n e], m' as [[d'] n' e']; cbn.
  unfold message.KE1_Serialize, cred.CredentialRequest_Serialize, encoding.Concat3; cbn.
  unfold len. intros Hd Hn H.
  apply app_inj_length in H; [|lia]. destruct H as [-> H].
  apply app_inj_length in H; [|lia]. destruct H as [-> ->].
  reflexivity.
Qed.

(** X21.  The encoding of KE2 is unambiguous once the lengths of its first
    five fields are fixed (the evaluated element, the masking nonce, the
    masked response, the server nonce and the ephemeral key): two KE2 with
    fields of these lengths and the same encoding are the same message, MAC
    included. *)
Theorem KE2_Serialize_inj (m m' : message.KE2) :
  len (cred.rData (message.KE2_CredentialResponse m))
  = len (cred.rData (message.KE2_CredentialResponse m')) ->
  len (cred.MaskingNonce (message.KE2_CredentialResponse m))
  = len (cred.MaskingNonce (message.KE2_CredentialResponse m')) ->
  len (cred.MaskedResponse (message.KE2_CredentialResponse m))
  = len (cred.MaskedResponse (message.KE2_CredentialResponse m')) ->
  len (message.NonceS m) = len (message.NonceS m') ->
  len (message.EpkS m) = len (message.EpkS m') ->
  message.KE2_Serialize m = message.KE2_Serialize m' ->
  m = m'.
Proof.
  destruct m as [[d n r] ns e mac], m' as [[d' n' r'] ns' e' mac']; cbn.
  unfold message.KE2_Serialize, cred.CredentialResponse_Serialize,
    encoding.Concat, encoding.Concat3; cbn.
  unfold len. intros Hd Hn Hr Hns He H.
  rewrite <- !app_assoc in H.
  apply app_inj_length in H; [|lia]. destruct H as [-> H].
  apply app_inj_length in H; [|lia]. destruct H as [-> H].
  apply app_inj_length in H; [|lia]. destruct H as [-> H].
  apply app_inj_length in H; [|lia]. destruct H as [-> H].
  apply app_inj_length in H; [|lia]. destruct H as [-> ->].
  reflexivity.
Qed.

Lemma KE1_Serialize_inj_witness :
  message.mkKE1 (cred.mkCredentialRequest [x01; x02]) [x03] [x04]
  = message.mkKE1 (cred.mkCredentialRequest [x01; x02]) [x03] [x04].
Proof.
  apply (KE1_Serialize_inj
           (message.mkKE1 (cred.mkCredentialRequest [x01; x02]) [x03] [x04])
           (message.mkKE1 (cred.mkCredentialRequest [x01; x02]) [x03] [x04]));
    reflexivity.
Defined.

Lemma KE2_Serialize_inj_witness :
  message.mkKE2 (cred.mkCredentialResponse [x01] [x02] [x03; x04]) [x05] [x06] [x07]
  = message.mkKE2 (cred.mkCredentialResponse [x01] [x02] [x03; x04]) [x05] [x06] [x07].
Proof.
  apply (KE2_Serialize_inj
           (message.mkKE2 (cred.mkCredentialResponse [x01] [x02] [x03; x04])
              [x05] [x06] [x07])
           (message.mkKE2 (cred.mkCredentialResponse [x01] [x02] [x03; x04])
              [x05] [x06] [x07]));
    reflexivity.
Defined.

(** ** The optimal envelope *)

Section OptimalEnvelope.
Context {prim : Primitives} {ep : EnvelopePrimitives prim}.
Import envelope.

(** X22.  The optimal envelope round trip: [RecoverSecret], given the
    inputs of [BuildEnvelopeOptimal] and the envelope that it built,
    accepts the envelope and returns the scalar whose encoding and public
    key [BuildEnvelopeOptimal] returned.  The secret key depends on the
    unblinded OPRF output only, not on the server's public key. *)
Theorem RecoverSecret_BuildEnvelopeOptimal (o : Optimal) (unblinded pks : bytes) :
  exists sk : @group.Scalar (group_of (Group o)),
    RecoverSecret o unblinded pks (snd (BuildEnvelopeOptimal o unblinded pks)) = inl sk
    /\ fst (fst (BuildEnvelopeOptimal o unblinded pks)) = ScalarBytes (Group o) sk
    /\ snd (fst (BuildEnvelopeOptimal o unblinded pks))
       = group.Bytes (group.Mult group.Base sk)
    /\ (forall pks' : bytes,
           fst (fst (BuildEnvelopeOptimal o unblinded pks'))
           = ScalarBytes (Group o) sk).
Proof.
  unfold RecoverSecret, BuildEnvelopeOptimal, buildKeys, hmac_Equal; cbn.
  eexists. rewrite (proj2 (bytes_eqb_eq _ _) eq_refl); cbn [negb].
  repeat split.
Qed.

(** X23.  [RecoverSecret] rejects an envelope, with the invalid-mac error,
    exactly when its tag differs from the tag that [BuildEnvelopeOptimal]
    computes from the same unblinded output and server public key. *)
Theorem RecoverSecret_rejects (o : Optimal) (unblinded pks : bytes) (envU : EnvelopeOpt) :
  (RecoverSecret o unblinded pks envU = inr ErrInvalidMac
   <-> AuthTag envU <> AuthTag (snd (BuildEnvelopeOptimal o unblinded pks)))
  /\ ((exists sk, RecoverSecret o unblinded pks envU = inl sk)
      <-> envU = snd (BuildEnvelopeOptimal o unblinded pks)).
Proof.
  unfold RecoverSecret, BuildEnvelopeOptimal, buildKeys, hmac_Equal; cbn.
  destruct envU as [t]; cbn.
  destruct (bytes_eqb _ t) eqn:E; cbn [negb].
  - apply bytes_eqb_eq in E. subst t. split.
    + split; [discriminate|]. intros H. now contradiction H.
    + split; [reflexivity|eauto].
  - split.
    + split; [|reflexivity]. intros _ H. subst t.
      rewrite (proj2 (bytes_eqb_eq _ _) eq_refl) in E. discriminate.
    + split; [intros [sk H]; discriminate|].
      intros H. injection H as ->.
      rewrite (proj2 (bytes_eqb_eq _ _) eq_refl) in E. discriminate.
Qed.

End OptimalEnvelope.

(** ** The statements above on inputs of the small instances *)

Lemma core3DH_client_server_agree_witness :
  let p := opaque.Parameters Toy.toy_server in
  let resp := cred.mkCredentialResponse [x08] [x01] [x02] in
  internal_ake.core3DH (prim := Toy.toy_primitives) (rh := Toy.toy_hash)
    internal_ake.client p (internal_ake.mkCoreKeys Toy.toy_group 3 7 [x05] [x0b])
    [x61] [x62] Toy.toy_ke1 (message.mkKE2 resp [x0c] [x05] [xaa]) []
  = internal_ake.core3DH (prim := Toy.toy_primitives) (rh := Toy.toy_hash)
      internal_ake.server p (internal_ake.mkCoreKeys Toy.toy_group 5 11 [x03] [x07])
      [x61] [x62] Toy.toy_ke1 (message.mkKE2 resp [x0c] [x05] []) [].
Proof.
  intros p resp.
  apply (core3DH_client_server_agree (prim := Toy.toy_primitives) (rh := Toy.toy_hash)
           p toy_group_laws 3 5 7 11);
    reflexivity.
Defined.

Lemma core3DH_error_witness :
  let p := opaque.Parameters Toy.toy_server in
  let resp := cred.mkCredentialResponse [x08] [x01] [x02] in
  [x01] = [x01]
  /\ ((exists e0, Toy.decode1 ErrDecodeElement [xff] = Err e0
                  /\ ErrWrap "decoding peer ephemeral public key" ErrDecodeElement
                     = ErrWrap "decoding peer ephemeral public key" e0)
      \/ (exists P e0, Toy.decode1 ErrDecodeElement [xff] = Ok P
                       /\ Toy.decode1 ErrDecodeElement [x07] = Err e0
                       /\ ErrWrap "decoding peer ephemeral public key" ErrDecodeElement
                          = ErrWrap "decoding peer public key" e0)).
Proof.
  intros p resp.
  apply (core3DH_error (prim := Toy.toy_primitives) (rh := Toy.toy_hash)
           internal_ake.server p (internal_ake.mkCoreKeys Toy.toy_group 5 11 [xff] [x07])
           [x61] [x62] Toy.toy_ke1 (message.mkKE2 resp [x0c] [x05] []) [x01] [x01]
           (ErrWrap "decoding peer ephemeral public key" ErrDecodeElement)).
  reflexivity.
Defined.

Lemma transcript_covers_KE2_witness :
  let p := opaque.Parameters Toy.toy_server in
  let ke2 := message.mkKE2 (cred.mkCredentialResponse [x08] [x01] [x02]) [x0c] [x05] [xaa] in
  exists t : bytes,
    internal_ake.transcript p [x61] [x62] Toy.toy_ke1 ke2 = Some t
    /\ t ++ [xaa]
       = list_byte_of_string "RFCXXXX"
         ++ ([x00; x00] ++ []) ++ ([x00; x01] ++ [x61])
         ++ message.KE1_Serialize Toy.toy_ke1
         ++ ([x00; x01] ++ [x62])
         ++ message.KE2_Serialize ke2.
Proof.
  intros p ke2.
  apply (transcript_covers_KE2 p [x61] [x62] Toy.toy_ke1 ke2); reflexivity.
Defined.

Lemma server_public_key_checked_by_Init_only_witness :
  opaque.RegistrationResponse (prim := Toy.toy_primitives) Toy.toy_server
    (message.mkRegistrationRequest [x09]) [xff] [x2a] [x03]
  = Ok (message.mkRegistrationResponse
          (internal.PadPoint (prim := Toy.toy_primitives) [x7f] x01) [xff])
  /\ opaque.Init (prim := Toy.toy_primitives) (rh := Toy.toy_hash) Toy.toy_Response
       Toy.toy_server Toy.toy_ke1 None [x05] [xff] [x03] Toy.toy_record [] Toy.counting_rng
     = (Err (ErrWrap "invalid server public key" ErrDecodeElement),
        Toy.toy_server, [], Toy.counting_rng).
Proof.
  pose proof (server_public_key_checked_by_Init_only (prim := Toy.toy_primitives)
                (rh := Toy.toy_hash) Toy.toy_Response Toy.toy_server
                ErrDecodeElement [xff] eq_refl) as [H1 H2].
  split.
  - apply H1. reflexivity.
  - apply H2.
Defined.

Lemma Init_fails_before_AKE_witness :
  opaque.Init (prim := Toy.toy_primitives) (rh := Toy.toy_hash) Toy.toy_Response
    Toy.toy_server Toy.toy_ke1 None [xff] [x05] [x03] Toy.toy_record [] Toy.counting_rng
  = (Err (ErrWrap "invalid server secret key" ErrDecodeScalar),
     Toy.toy_server, [], Toy.counting_rng).
Proof.
  apply (proj1 (Init_fails_before_AKE (prim := Toy.toy_primitives) (rh := Toy.toy_hash)
                  Toy.toy_Response Toy.toy_server Toy.toy_ke1 None [xff] [x05] [x03]
                  Toy.toy_record [] Toy.counting_rng 5 eq_refl)).
  reflexivity.
Defined.

Lemma Init_inversion_witness :
  (exists P, Toy.decode1 ErrDecodeElement [x05] = Ok P)
  /\ (exists sks, Toy.decode1 ErrDecodeScalar [x0b] = Ok sks)
  /\ (exists z, opaque.oprfResponse (prim := Toy.toy_primitives) Toy.toy_server
                  [x03] [x2a] [x09] = Ok z)
  /\ opaque.Parameters Toy.toy_server = opaque.Parameters Toy.toy_server.
Proof.
  pose (X := opaque.Init (prim := Toy.toy_primitives) (rh := Toy.toy_hash)
               Toy.toy_Response Toy.toy_server Toy.toy_ke1 None [x0b] [x05] [x03]
               Toy.toy_record [] Toy.counting_rng).
  exact (Init_inversion (prim := Toy.toy_primitives) (rh := Toy.toy_hash)
           Toy.toy_Response Toy.toy_server (snd (fst (fst X))) Toy.toy_ke1 None
           [x0b] [x05] [x03] Toy.toy_record [] (snd (fst X)) Toy.counting_rng (snd X)
           (fst (fst (fst X))) eq_refl).
Defined.

Lemma SetAKEState_lengths_witness :
  opaque.SetAKEState (prim := Toy.toy_primitives) Toy.toy_SetState Toy.toy_server [x01]
  = Some (Some ErrInvalidState, Toy.toy_server).
Proof.
  apply (proj1 (SetAKEState_lengths (prim := Toy.toy_primitives) Toy.toy_SetState
                  Toy.toy_server [x01]
                  ltac:(vm_compute; discriminate) ltac:(vm_compute; discriminate)
                  ltac:(vm_compute; discriminate))).
  vm_compute. discriminate.
Defined.
